(** * Website change monitor: a shallow embedding of [website-monitor.py]

    The development models the content-change monitoring engine of the
    website watcher: fetching with bounded retries, content extraction and
    whitespace normalisation, line-level differencing, the per-site
    snapshot files, the per-site check, the single-pass cycle and the
    daemon's scheduling step, together with the notifier, the display of
    the last diff and the completion of a loaded configuration.

    Conventions.
    - Python [str] values are sequences of Unicode code points: [text] is
      [list N].  Configuration strings that are only compared or used as
      keys (names, URLs, selectors, directory names) are Rocq [string]s.
    - [Optional[str]] is [option text]; Python's truth test on such a value
      is [py_truthy] ([None] and the empty string are false).
    - Effects are threaded through a state monad [M] over a [World]: the
      files and directories of the data directory, the scripted network,
      the clock, and the chronological trace of observable events (HTTP
      requests, sleeps, log records, notification deliveries).
    - Third-party libraries (hashlib, BeautifulSoup, the user-supplied
      regular expressions, difflib, json, strftime, the buffering of
      [io]) are taken as an interface, [Libraries]; what the proofs need
      from difflib and json is stated as [DifferLaws] and [JsonLaws].
    - A file holds the text written to it, in code points, as on a
      POSIX system, where writing translates no line end.  A write opens
      the file, which empties it, and then reaches it piece by piece; a
      read in text mode returns what the file holds with every line end
      CR LF or CR turned into LF.  The operating system never refuses a
      read or a write in this model and every text is taken to be one
      the UTF-8 codec can write ([py_encodable]: no lone surrogate), so
      the [except] branches of [save_content] and [load_content] do not
      fire.
    - The two notification channels answer as the world says: the SMTP
      exchange can fail before or after the message is taken, and the
      desktop notifier can show the notification, fail unnoticed, raise
      or be missing.
    - Time is the integer reading of a clock that advances while the
      process sleeps. *)

From stdpp Require Import gmap strings list fin_maps.
From Stdlib Require Import ZArith NArith Ascii Lia DecimalString DecimalZ DecimalPos.

Local Open Scope Z_scope.

(** ** Text *)

Abbreviation text := (list N).

(** The code points of an ASCII literal. *)
Definition txt (s : string) : text :=
  map N_of_ascii (String.list_ascii_of_string s).

(** [bool(x)] for an [Optional[str]]. *)
Definition py_truthy (x : option text) : bool :=
  match x with
  | None | Some [] => false
  | Some (_ :: _) => true
  end.

(** [str.isspace] on one code point, which is also the class [\s] of a
    [str] pattern: U+0009..U+000D, U+001C..U+0020, U+0085, U+00A0, U+1680,
    U+2000..U+200A, U+2028, U+2029, U+202F, U+205F, U+3000. *)
Definition py_isspace (c : N) : bool :=
  ((9 <=? c) && (c <=? 13) || (28 <=? c) && (c <=? 32)
   || (c =? 133) || (c =? 160) || (c =? 5760)
   || (8192 <=? c) && (c <=? 8202)
   || (c =? 8232) || (c =? 8233) || (c =? 8239) || (c =? 8287)
   || (c =? 12288))%N.

Definition SPACE : N := 32%N.

(** [re.sub(r'\s+', ' ', t)], as the scanner it is: [in_run] tells whether
    the previous code point belonged to a whitespace run, whose single
    replacement space has then been emitted already. *)
Fixpoint collapse_ws (in_run : bool) (t : text) : text :=
  match t with
  | [] => []
  | c :: r =>
      if py_isspace c
      then (if in_run then collapse_ws true r else SPACE :: collapse_ws true r)
      else c :: collapse_ws false r
  end.

Definition re_sub_whitespace (t : text) : text := collapse_ws false t.

Fixpoint py_lstrip (t : text) : text :=
  match t with
  | [] => []
  | c :: r => if py_isspace c then py_lstrip r else t
  end.

Definition py_rstrip (t : text) : text := reverse (py_lstrip (reverse t)).

(** [t.strip()] *)
Definition py_strip (t : text) : text := py_rstrip (py_lstrip t).

(** The last step of [extract_content]:
    [re.sub(r'\s+', ' ', clean_content).strip()]. *)
Definition normalize_whitespace (t : text) : text :=
  py_strip (re_sub_whitespace t).

(** Every whitespace code point of [t] is a single U+0020, with no
    whitespace before it ([prev_ws] speaks for the code point preceding
    [t]). *)
Fixpoint single_spaced (prev_ws : bool) (t : text) : Prop :=
  match t with
  | [] => True
  | c :: r =>
      if py_isspace c
      then c = SPACE ∧ prev_ws = false ∧ single_spaced true r
      else single_spaced false r
  end.

(** A text that does not start with whitespace, which [lstrip] leaves
    alone. *)
Definition starts_clean (t : text) : Prop :=
  match t with
  | [] => True
  | c :: _ => py_isspace c = false
  end.

(** [t.splitlines()]: the line boundaries are LF, CR, CR LF, VT, FF, FS,
    GS, RS, NEL, LS and PS; [cur] is the line being read. *)
Definition py_islinebreak (c : N) : bool :=
  ((10 <=? c) && (c <=? 13) || (28 <=? c) && (c <=? 30)
   || (c =? 133) || (c =? 8232) || (c =? 8233))%N.

Fixpoint splitlines_from (cur : text) (t : text) : list text :=
  match t with
  | [] => match cur with [] => [] | _ :: _ => [cur] end
  | c :: r =>
      if (c =? 13)%N
      then match r with
           | c' :: r' =>
               if (c' =? 10)%N then cur :: splitlines_from [] r'
               else cur :: splitlines_from [] r
           | [] => cur :: splitlines_from [] r
           end
      else if py_islinebreak c then cur :: splitlines_from [] r
      else splitlines_from (cur ++ [c]) r
  end.

Definition py_splitlines (t : text) : list text := splitlines_from [] t.

(** [line.startswith(p)] *)
Fixpoint py_startswith (p line : text) : bool :=
  match p, line with
  | [], _ => true
  | _ :: _, [] => false
  | a :: p', b :: line' => (a =? b)%N && py_startswith p' line'
  end.

(** [sep.join(lines)] *)
Fixpoint py_join (sep : text) (lines : list text) : text :=
  match lines with
  | [] => []
  | [l] => l
  | l :: rest => l ++ sep ++ py_join sep rest
  end.

(** [f.read()] on a file opened in text mode: the line ends CR LF and CR
    are read as LF. *)
Fixpoint py_universal_newlines (t : text) : text :=
  match t with
  | [] => []
  | c :: r =>
      if (c =? 13)%N
      then 10%N :: match r with
                   | c' :: r' =>
                       if (c' =? 10)%N then py_universal_newlines r'
                       else py_universal_newlines r
                   | [] => []
                   end
      else c :: py_universal_newlines r
  end.

(** A code point the UTF-8 codec writes: any but the surrogates
    U+D800..U+DFFF, up to U+10FFFF. *)
Definition py_encodable_point (c : N) : bool :=
  (negb ((55296 <=? c) && (c <=? 57343)) && (c <=? 1114111))%N.

(** A text [f.write] takes without raising [UnicodeEncodeError]. *)
Definition py_encodable (t : text) : bool := forallb py_encodable_point t.

(** The pieces of a text cut at the given sizes, with what is left as
    the last piece. *)
Fixpoint cut_text (sizes : list nat) (t : text) : list text :=
  match sizes with
  | [] => [t]
  | n :: rest => take n t :: cut_text rest (drop n t)
  end.

(** ** The library interface *)

(** The two-character codes that open the lines of a [Differ] delta. *)
Definition TAG_SAME : text := txt "  ".
Definition TAG_OLD : text := txt "- ".
Definition TAG_NEW : text := txt "+ ".
Definition LF : text := [10%N].

(** [re.sub(pattern, '', content)] returns, or raises [re.error] on an
    invalid pattern. *)
Inductive re_result :=
  | ReText (t : text)
  | ReError.

Class Libraries := {
  (** [hashlib.md5(url.encode()).hexdigest()] *)
  md5_hexdigest : string → string;
  (** A parsed document, [BeautifulSoup(markup, 'html.parser')]; [None]
      when the parser raises. *)
  soup : Type;
  bs_parse : text → option soup;
  (** [soup.select(selector)], each match serialised with [str]; [None]
      when the selector is rejected. *)
  soup_select : soup → string → option (list text);
  (** [str(soup)] *)
  soup_str : soup → text;
  (** [get_text()] after the script and style elements have been
      decomposed and the comment strings extracted; [None] when one of
      these raises. *)
  soup_visible_text : soup → option text;
  re_sub_delete : string → text → re_result;
  (** [list(difflib.Differ().compare(a, b))] *)
  differ_compare : list text → list text → list text;
  (** [difflib.HtmlDiff().make_file] followed by the two [replace] calls
      of [format_diff_html], for a site name, a URL and a formatted time. *)
  html_diff_report : list text → list text → string → string → text → text;
  (** The paragraph [format_diff_html] returns when a side is missing. *)
  html_no_report : string → text;
  (** [json.dump] of [{"timestamp": ts, "datetime": dt}]. *)
  json_dump_check_info : Z → text → text;
  (** [json.load(f).get('timestamp', 0)]; [None] when it raises. *)
  json_load_timestamp : text → option Z;
  (** [datetime.datetime.now().strftime("%Y-%m-%d %H:%M:%S")] at a clock
      reading. *)
  strftime : Z → text;
  (** [str.lower] *)
  str_lower : string → string;
  (** The buffering of [io] and of the operating system: the sizes, in
      code points, of the pieces in which a text written to a file
      reaches it, in order; what is left of the text reaches it when the
      file is closed. *)
  io_write_sizes : text → list nat;
}.

(** [difflib.restore(delta, which)]: the lines of one side of a delta. *)
Definition difflib_restore (tag : text) (delta : list text) : list text :=
  drop 2 <$> filter (λ line, py_startswith TAG_SAME line || py_startswith tag line) delta.

(** What difflib documents of [Differ.compare]: either input is restored
    from the delta, and equal inputs give a delta of common lines only. *)
Class DifferLaws (L : Libraries) : Prop := {
  differ_restore_old a b : difflib_restore TAG_OLD (differ_compare a b) = a;
  differ_restore_new a b : difflib_restore TAG_NEW (differ_compare a b) = b;
  differ_same a : Forall (λ line, py_startswith TAG_SAME line = true) (differ_compare a a);
}.

(** [json.load] reads back the time stamp [json.dump] wrote. *)
Class JsonLaws (L : Libraries) : Prop := {
  json_roundtrip ts dt : json_load_timestamp (json_dump_check_info ts dt) = Some ts;
}.

(** ** Configuration *)

(** One entry of [config['sites']].  A field read with [site.get] is an
    [option]: [None] stands for a missing key, and for [check_interval]
    also for the JSON [null] the script writes when no interval is
    given, which [run_daemon] takes for a missing one. *)
Record Site := {
  site_name : string;
  site_url : string;
  site_selector : option string;
  site_ignore_patterns : option (list string);
  site_check_interval : option Z;
  site_active : option bool;
}.

(** [config['notification']['email']] *)
Record EmailConfig := {
  email_enabled : bool;
  smtp_server : string;
  smtp_port : Z;
  email_username : string;
  email_password : string;
  from_addr : string;
  to_addr : list string;
}.

(** Durations and time stamps are in seconds.  [retry_delay] is handed to
    [time.sleep], which takes no negative value. *)
Record Config := {
  check_interval : Z;
  user_agent : string;
  timeout : Z;
  retry_count : Z;
  retry_delay : N;
  data_dir : string;
  notification_email : EmailConfig;
  notification_desktop_enabled : bool;
  sites : list Site;
}.

(** ** The world *)

(** A file is named by its directory and its name in it:
    [site_dir / "content.txt"] is [(site_dir, "content.txt")]. *)
Abbreviation path := (string * string)%type.

(** What one [requests.get] followed by [raise_for_status] comes to: the
    response text, or a [requests.RequestException] (no route, a time-out,
    an error status). *)
Inductive response :=
  | ResponseText (body : text)
  | RequestException.

Inductive log_level := INFO | WARNING | ERROR.

(** The records the modelled functions hand to [logger], by message, with
    the values the message interpolates. *)
Inductive log_msg :=
  | FetchRetrying (url : string)
  | FetchFailed (url : string)
  | SelectorNoMatch (selector : string)
  | InvalidPattern (pattern : string)
  | ParseFailed
  | EmailDisabled
  | EmailFieldMissing (field : string)
  | EmailNoRecipient
  | EmailSent (recipients : list string)
  | EmailSendFailed
  | DesktopSendFailed
  | Checking (name url : string)
  | CannotFetch (name : string)
  | NewBaseline (name : string)
  | ChangeDetected (name : string)
  | NoChange (name : string)
  | EmptySiteList
  | Resetting (name : string)
  | SiteNotFound (key : string)
  | SkipDisabled (name : string)
  | DaemonStarted
  | DaemonStopped.

Inductive event :=
  | EvLog (level : log_level) (msg : log_msg)
  | EvGet (url : string)
  | EvSleep (seconds : N)
  (** a message handed to the SMTP server: the site and the start of the
      diff quoted in the body *)
  | EvEmail (name url : string) (summary : text)
  (** a desktop notification shown for a site *)
  | EvDesktop (name url : string).

(** What the exchange with the SMTP server in [send_email_notification]
    comes to: [smtplib.SMTP(...)], [starttls], [login], [send_message],
    [quit]. *)
Inductive smtp_outcome :=
  (** a call raises before the server has taken the message *)
  | SmtpRefused
  (** [send_message] returns and [quit] raises *)
  | SmtpSentThenFailed
  (** the five calls return *)
  | SmtpDelivered.

(** What [send_desktop_notification] meets on the machine. *)
Inductive desktop_outcome :=
  (** the notification is shown *)
  | DesktopShown
  (** the notifier is a command run by [os.system] ([notify-send],
      [osascript]) that fails: its status is not read, nothing is shown *)
  | DesktopCommandFailed
  (** the notification library ([notify2], [win10toast]) raises *)
  | DesktopRaised
  (** [os.name] is neither [posix] nor [nt], nor the platform macOS: no
      notifier is tried *)
  | DesktopUnsupported.

Record World := {
  (** the files under the data directory *)
  files : gmap path text;
  (** the directories made so far *)
  dirs : gset string;
  (** for each URL, what the coming requests will meet, in order; a URL
      with nothing left is unreachable *)
  network : gmap string (list response);
  (** what sending a message by SMTP comes to, and what showing a desktop
      notification comes to *)
  smtp_up : smtp_outcome;
  desktop_up : desktop_outcome;
  (** [time.time()] *)
  clock : Z;
  (** the events so far, oldest first *)
  trace : list event;
}.

Definition with_files (f : gmap path text) (w : World) : World :=
  {| files := f; dirs := dirs w; network := network w; smtp_up := smtp_up w;
     desktop_up := desktop_up w; clock := clock w; trace := trace w |}.

Definition with_dirs (d : gset string) (w : World) : World :=
  {| files := files w; dirs := d; network := network w; smtp_up := smtp_up w;
     desktop_up := desktop_up w; clock := clock w; trace := trace w |}.

Definition with_network (n : gmap string (list response)) (w : World) : World :=
  {| files := files w; dirs := dirs w; network := n; smtp_up := smtp_up w;
     desktop_up := desktop_up w; clock := clock w; trace := trace w |}.

Definition with_clock (c : Z) (w : World) : World :=
  {| files := files w; dirs := dirs w; network := network w; smtp_up := smtp_up w;
     desktop_up := desktop_up w; clock := c; trace := trace w |}.

Definition with_trace (t : list event) (w : World) : World :=
  {| files := files w; dirs := dirs w; network := network w; smtp_up := smtp_up w;
     desktop_up := desktop_up w; clock := clock w; trace := t |}.


(** ** The state monad *)

Definition M (A : Type) : Type := World → A * World.

#[global] Instance M_ret : MRet M := λ A a w, (a, w).
#[global] Instance M_bind : MBind M :=
  λ A B f m w, let r := m w in f r.1 r.2.

(** [for x in xs: body(x)] *)
Fixpoint for_each {A : Type} (body : A → M unit) (xs : list A) : M unit :=
  match xs with
  | [] => mret tt
  | x :: rest => body x;; for_each body rest
  end.

Definition emit (e : event) : M unit :=
  λ w, (tt, with_trace (trace w ++ [e]) w).

Definition emit_all (es : list event) : M unit :=
  λ w, (tt, with_trace (trace w ++ es) w).

Definition log (level : log_level) (msg : log_msg) : M unit :=
  emit (EvLog level msg).

(** [time.time()] *)
Definition time_time : M Z := λ w, (clock w, w).

(** [time.sleep(seconds)] *)
Definition time_sleep (seconds : N) : M unit :=
  λ w, (tt, with_trace (trace w ++ [EvSleep seconds])
              (with_clock (clock w + Z.of_N seconds) w)).

(** [d.mkdir(exist_ok=True)] *)
Definition mkdir (d : string) : M unit :=
  λ w, (tt, with_dirs ({[d]} ∪ dirs w) w).

(** [requests.get(url, ...)] with [response.raise_for_status()]: the next
    scripted response for [url]. *)
Definition requests_get (url : string) : M response :=
  λ w,
    match network w !! url with
    | Some (r :: rest) =>
        (r, with_trace (trace w ++ [EvGet url])
              (with_network (<[url := rest]> (network w)) w))
    | Some [] | None =>
        (RequestException, with_trace (trace w ++ [EvGet url]) w)
    end.

(** ** Files *)

(** [open(p, 'w')] truncates [p], making it if need be. *)
Definition fs_open_w (p : path) : M unit :=
  λ w, (tt, with_files (<[p := []]> (files w)) w).

(** One piece of what was written to the open file [p] reaches it: it
    goes to the end of what the file holds. *)
Definition fs_write (p : path) (piece : text) : M unit :=
  λ w, (tt, with_files (alter (λ held, held ++ piece) p (files w)) w).

(** [f.read()] on [open(p, 'r', encoding='utf-8')], for a file there may
    not be. *)
Definition fs_read (p : path) : M (option text) :=
  λ w, (py_universal_newlines <$> files w !! p, w).

(** The steps of a program, one after the other: [for_each] on the steps
    themselves. *)
Definition run_steps (steps : list (M unit)) : M unit :=
  for_each (λ step : M unit, step) steps.

(** The worlds another process can meet while the steps run: the one each
    step leaves. *)
Fixpoint stages (steps : list (M unit)) (w : World) : list World :=
  match steps with
  | [] => []
  | step :: rest => (step w).2 :: stages rest (step w).2
  end.

Section Files.

Context {L : Libraries}.

(** The steps of
    [with open(p, 'w', encoding='utf-8') as f: f.write(content)]: the file
    is opened, the pieces of the content reach it, the last of them when
    it is closed. *)
Definition write_steps (p : path) (content : text) : list (M unit) :=
  fs_open_w p :: (fs_write p <$> cut_text (io_write_sizes content) content).

Definition write_text (p : path) (content : text) : M unit :=
  run_steps (write_steps p content).

(** [save_content(content, file_path)] *)
Definition save_content (content : text) (file_path : path) : M bool :=
  write_text file_path content;;
  mret true.

(** [load_content(file_path)] *)
Definition load_content (file_path : path) : M (option text) :=
  fs_read file_path.

End Files.

(** ** The monitor *)

Section Monitor.

Context {L : Libraries}.

(** [hashlib] names the directory of a site after its URL alone. *)
Definition site_dir_of (config : Config) (site : Site) : string :=
  (data_dir config +:+ "/" +:+ md5_hexdigest (site_url site))%string.

Definition content_file_of (config : Config) (site : Site) : path :=
  (site_dir_of config site, "content.txt"%string).
Definition html_file_of (config : Config) (site : Site) : path :=
  (site_dir_of config site, "raw.html"%string).
Definition diff_file_of (config : Config) (site : Site) : path :=
  (site_dir_of config site, "diff.txt"%string).
Definition html_diff_file_of (config : Config) (site : Site) : path :=
  (site_dir_of config site, "diff.html"%string).
Definition last_check_file_of (config : Config) (site : Site) : path :=
  (site_dir_of config site, "last_check.json"%string).

(** [get_site_data_path(config, site)] *)
Definition get_site_data_path (config : Config) (site : Site) : M string :=
  mkdir (data_dir config);;
  mkdir (site_dir_of config site);;
  mret (site_dir_of config site).

(** The body of [for attempt in range(config['retry_count'])], over the
    attempts still to be made; running off the end of the loop returns
    [None]. *)
Fixpoint fetch_attempts (url : string) (config : Config) (attempts : list nat)
    : M (option text) :=
  match attempts with
  | [] => mret None
  | attempt :: rest =>
      r ← requests_get url;
      match r with
      | ResponseText body => mret (Some body)
      | RequestException =>
          if Z.of_nat attempt <? retry_count config - 1
          then log WARNING (FetchRetrying url);;
               time_sleep (retry_delay config);;
               fetch_attempts url config rest
          else log ERROR (FetchFailed url);;
               mret None
      end
  end.

(** [fetch_website_content(url, config)] *)
Definition fetch_website_content (url : string) (config : Config) : M (option text) :=
  fetch_attempts url config (seq 0 (Z.to_nat (retry_count config))).

(** The first part of [extract_content]: the markup the selector keeps,
    with the warning logged on the way; [None] when parsing or selecting
    raises. *)
Definition select_content (html : text) (selector : string)
    : option (text * list event) :=
  parsed ← bs_parse html;
  if bool_decide (selector = ""%string)
  then Some (soup_str parsed, [])
  else
    elements ← soup_select parsed selector;
    match elements with
    | [] => Some (soup_str parsed, [EvLog WARNING (SelectorNoMatch selector)])
    | _ :: _ => Some (concat elements, [])
    end.

(** [for pattern in ignore_patterns]: an invalid pattern is logged and
    skipped. *)
Fixpoint apply_ignore_patterns (patterns : list string) (content : text)
    : text * list event :=
  match patterns with
  | [] => (content, [])
  | pattern :: rest =>
      match re_sub_delete pattern content with
      | ReText content' => apply_ignore_patterns rest content'
      | ReError =>
          let r := apply_ignore_patterns rest content in
          (r.1, EvLog ERROR (InvalidPattern pattern) :: r.2)
      end
  end.

(** [extract_content(html, selector, ignore_patterns)], with the records
    it logs.  Whatever raises inside is caught by the outer handler,
    which returns [html] itself. *)
Definition extract_content (html : text) (selector : string)
    (ignore_patterns : list string) : text * list event :=
  match select_content html selector with
  | None => (html, [EvLog ERROR ParseFailed])
  | Some (content, logged) =>
      let r := apply_ignore_patterns ignore_patterns content in
      match bs_parse r.1 ≫= soup_visible_text with
      | None => (html, logged ++ r.2 ++ [EvLog ERROR ParseFailed])
      | Some clean_content => (normalize_whitespace clean_content, logged ++ r.2)
      end
  end.

(** [compute_diff(old_content, new_content)] *)
Definition compute_diff (old_content new_content : option text) : option text :=
  match old_content, new_content with
  | Some (c :: old), Some (c' :: new) =>
      let diff := differ_compare (py_splitlines (c :: old)) (py_splitlines (c' :: new)) in
      let changes :=
        filter (λ line, py_startswith TAG_NEW line || py_startswith TAG_OLD line) diff in
      match changes with
      | [] => None
      | _ :: _ => Some (py_join LF changes)
      end
  | _, _ => None
  end.

(** [format_diff_html(old_content, new_content, site_name, url)] *)
Definition format_diff_html (old_content new_content : option text)
    (name url : string) : M text :=
  match old_content, new_content with
  | Some (c :: old), Some (c' :: new) =>
      now ← time_time;
      mret (html_diff_report (py_splitlines (c :: old)) (py_splitlines (c' :: new))
              name url (strftime now))
  | _, _ => mret (html_no_report name)
  end.

(** The first of the required e-mail settings that is empty. *)
Definition email_missing_field (e : EmailConfig) : option string :=
  if bool_decide (smtp_server e = ""%string) then Some "smtp_server"%string
  else if smtp_port e =? 0 then Some "smtp_port"%string
  else if bool_decide (email_username e = ""%string) then Some "username"%string
  else if bool_decide (email_password e = ""%string) then Some "password"%string
  else if bool_decide (from_addr e = ""%string) then Some "from_addr"%string
  else None.

(** [send_email_notification(site, diff, config)] *)
Definition send_email_notification (site : Site) (diff : text) (config : Config)
    : M bool :=
  let email_config := notification_email config in
  if negb (email_enabled email_config)
  then log INFO EmailDisabled;; mret false
  else
    match email_missing_field email_config with
    | Some field => log ERROR (EmailFieldMissing field);; mret false
    | None =>
        match to_addr email_config with
        | [] => log ERROR EmailNoRecipient;; mret false
        | _ :: _ =>
            λ w,
              match smtp_up w with
              | SmtpDelivered =>
                  (emit (EvEmail (site_name site) (site_url site) (take 500 diff));;
                   log INFO (EmailSent (to_addr email_config));;
                   mret true) w
              | SmtpSentThenFailed =>
                  (emit (EvEmail (site_name site) (site_url site) (take 500 diff));;
                   log ERROR EmailSendFailed;;
                   mret false) w
              | SmtpRefused => (log ERROR EmailSendFailed;; mret false) w
              end
        end
    end.

(** [send_desktop_notification(site, diff)] *)
Definition send_desktop_notification (site : Site) (diff : text) : M bool :=
  λ w,
    match desktop_up w with
    | DesktopShown => (emit (EvDesktop (site_name site) (site_url site));; mret true) w
    | DesktopCommandFailed => (true, w)
    | DesktopRaised => (log ERROR DesktopSendFailed;; mret false) w
    | DesktopUnsupported => (false, w)
    end.

(** [send_notification(site, diff, config)] *)
Definition send_notification (site : Site) (diff : text) (config : Config) : M bool :=
  sent_by_email ←
    (if email_enabled (notification_email config)
     then send_email_notification site diff config
     else mret false);
  sent_to_desktop ←
    (if notification_desktop_enabled config
     then send_desktop_notification site diff
     else mret false);
  mret (sent_by_email || sent_to_desktop).

(** The [check_info] dictionary, dumped to [last_check.json]. *)
Definition write_last_check (last_check_file : path) : M unit :=
  now ← time_time;
  write_text last_check_file (json_dump_check_info now (strftime now)).

(** [check_website_changes(site, config, force_update)] *)
Definition check_website_changes (site : Site) (config : Config)
    (force_update : bool) : M bool :=
  log INFO (Checking (site_name site) (site_url site));;
  site_dir ← get_site_data_path config site;
  let content_file := (site_dir, "content.txt"%string) in
  let html_file := (site_dir, "raw.html"%string) in
  let diff_file := (site_dir, "diff.txt"%string) in
  let html_diff_file := (site_dir, "diff.html"%string) in
  let last_check_file := (site_dir, "last_check.json"%string) in
  html_content ← fetch_website_content (site_url site) config;
  if negb (py_truthy html_content)
  then log ERROR (CannotFetch (site_name site));; mret false
  else
    let html := default [] html_content in
    save_content html html_file;;
    let extraction :=
      extract_content html (default "body"%string (site_selector site))
        (default [] (site_ignore_patterns site)) in
    emit_all extraction.2;;
    let extracted_content := extraction.1 in
    previous_content ← load_content content_file;
    if negb (py_truthy previous_content) || force_update
    then
      log INFO (NewBaseline (site_name site));;
      save_content extracted_content content_file;;
      write_last_check last_check_file;;
      mret false
    else
      let diff := compute_diff previous_content (Some extracted_content) in
      write_last_check last_check_file;;
      if py_truthy diff
      then
        let diff_text := default [] diff in
        log INFO (ChangeDetected (site_name site));;
        save_content diff_text diff_file;;
        html_diff ← format_diff_html previous_content (Some extracted_content)
                      (site_name site) (site_url site);
        save_content html_diff html_diff_file;;
        save_content extracted_content content_file;;
        send_notification site diff_text config;;
        mret true
      else
        log INFO (NoChange (site_name site));;
        mret false.

(** [find_site_by_name_or_url(sites, name_or_url)] *)
Fixpoint find_site_by_name_or_url (all : list Site) (name_or_url : string)
    : option Site :=
  match all with
  | [] => None
  | site :: rest =>
      if bool_decide (str_lower (site_name site) = str_lower name_or_url)
         || bool_decide (str_lower (site_url site) = str_lower name_or_url)
      then Some site
      else find_site_by_name_or_url rest name_or_url
  end.

(** The loop of [check_sites], over the sites still to be visited. *)
Fixpoint check_sites_loop (config : Config) (remaining : list Site)
    (changes_detected : bool) : M bool :=
  match remaining with
  | [] => mret changes_detected
  | site :: rest =>
      if negb (default true (site_active site))
      then log INFO (SkipDisabled (site_name site));;
           check_sites_loop config rest changes_detected
      else
        changed ← check_website_changes site config false;
        check_sites_loop config rest (if changed : bool then true else changes_detected)
  end.

(** [check_sites(config, reset_site)]; [None] is Python's bare
    [return]. *)
Definition check_sites (config : Config) (reset_site : option string)
    : M (option bool) :=
  match sites config with
  | [] => log WARNING EmptySiteList;; mret None
  | _ :: _ =>
      match reset_site with
      | Some (String c key) =>
          match find_site_by_name_or_url (sites config) (String c key) with
          | Some site =>
              log INFO (Resetting (site_name site));;
              check_website_changes site config true;;
              mret None
          | None => log ERROR (SiteNotFound (String c key));; mret None
          end
      | Some EmptyString | None =>
          changes_detected ← check_sites_loop config (sites config) false;
          mret (Some changes_detected)
      end
  end.

(** The time of the last check, as [run_daemon] reads it from
    [last_check.json]: 0 when the file is missing or unreadable. *)
Definition last_check_time_of (fs : gmap path text) (last_check_file : path) : Z :=
  match fs !! last_check_file with
  | Some held => default 0 (json_load_timestamp held)
  | None => 0
  end.

(** [site.get('check_interval') or config['check_interval']] *)
Definition effective_interval (config : Config) (site : Site) : Z :=
  match site_check_interval site with
  | Some 0 | None => check_interval config
  | Some override => override
  end.

(** The body of [for site in sites] in [run_daemon], at the reading
    [now] of the clock taken when the pass began. *)
Definition daemon_visit (config : Config) (now : Z) (site : Site) : M unit :=
  if negb (default true (site_active site))
  then mret tt
  else
    site_dir ← get_site_data_path config site;
    let last_check_file := (site_dir, "last_check.json"%string) in
    last_check_time ← (λ w, (last_check_time_of (files w) last_check_file, w));
    let check_interval := effective_interval config site in
    if now - last_check_time >=? check_interval
    then check_website_changes site config false;; mret tt
    else mret tt.

(** One pass of the daemon's [while True]. *)
Definition daemon_tick (config : Config) : M unit :=
  now ← time_time;
  for_each (daemon_visit config now) (sites config);;
  time_sleep 60.

Fixpoint daemon_ticks (config : Config) (passes : nat) : M unit :=
  match passes with
  | O => mret tt
  | S n => daemon_tick config;; daemon_ticks config n
  end.

(** [run_daemon(config, args)], interrupted from the keyboard once
    [passes] passes have been made. *)
Definition run_daemon (config : Config) (passes : nat) : M unit :=
  log INFO DaemonStarted;;
  match sites config with
  | [] => log ERROR EmptySiteList
  | _ :: _ => daemon_ticks config passes;; log INFO DaemonStopped
  end.

End Monitor.

(** ** A small instance of the library interface

    Enough of each library to run the monitor on examples: the digest is
    the URL itself, a document is its markup, every selector keeps the
    whole document, no pattern matches, the visible text is the markup
    with its tags dropped, the delta keeps the common leading lines and
    then removes and adds the rest, and the check record is the time stamp
    in decimal. *)

Module Demo.

(** The markup outside [<...>]. *)
Fixpoint drop_tags (in_tag : bool) (t : text) : text :=
  match t with
  | [] => []
  | c :: r =>
      if (c =? 60)%N then drop_tags true r
      else if in_tag then drop_tags (negb (c =? 62)%N) r
      else c :: drop_tags false r
  end.

Fixpoint compare (a b : list text) : list text :=
  match a, b with
  | x :: a', y :: b' =>
      if decide (x = y) then (TAG_SAME ++ x) :: compare a' b'
      else (app TAG_OLD <$> a) ++ (app TAG_NEW <$> b)
  | _, _ => (app TAG_OLD <$> a) ++ (app TAG_NEW <$> b)
  end.

Definition untxt (t : text) : string :=
  String.string_of_list_ascii (ascii_of_N <$> t).

Definition dump_check_info (ts : Z) (dt : text) : text :=
  txt (NilZero.string_of_int (Z.to_int ts)).

Definition load_timestamp (held : text) : option Z :=
  Z.of_int <$> NilZero.int_of_string (untxt held).

(** A buffer of eight code points: a text reaches its file eight code
    points at a time, and what is left on closing. *)
Definition write_sizes (t : text) : list nat := replicate (length t / 8)%nat 8%nat.

Definition libraries : Libraries := {|
  md5_hexdigest := λ url, url;
  soup := text;
  bs_parse := Some;
  soup_select := λ parsed _, Some [parsed];
  soup_str := λ parsed, parsed;
  soup_visible_text := λ parsed, Some (drop_tags false parsed);
  re_sub_delete := λ _ content, ReText content;
  differ_compare := compare;
  html_diff_report := λ _ _ _ _ _, txt "<html>";
  html_no_report := λ _, txt "<p>";
  json_dump_check_info := dump_check_info;
  json_load_timestamp := load_timestamp;
  strftime := λ _, txt "now";
  str_lower := λ s, s;
  io_write_sizes := write_sizes;
|}.

Definition email_off : EmailConfig := {|
  email_enabled := false; smtp_server := "smtp.gmail.com"; smtp_port := 587;
  email_username := ""; email_password := ""; from_addr := ""; to_addr := [];
|}.

(** The default configuration of the script, with one site. *)
Definition example_site : Site := {|
  site_name := "Example"; site_url := "https://example.com";
  site_selector := Some "#content"%string; site_ignore_patterns := Some [];
  site_check_interval := Some 60; site_active := Some true;
|}.

Definition config : Config := {|
  check_interval := 3600; user_agent := "Mozilla/5.0"; timeout := 30;
  retry_count := 3; retry_delay := 5; data_dir := "monitor_data";
  notification_email := email_off; notification_desktop_enabled := true;
  sites := [example_site];
|}.

(** Two payloads of the example site. *)
Definition hello : text := txt "<div id=content>Hello</div>".
Definition hello_world : text := txt "<div id=content>Hello World</div>".

(** Two sites watched together. *)
Definition site_a : Site := {|
  site_name := "A"; site_url := "https://a.example";
  site_selector := None; site_ignore_patterns := None;
  site_check_interval := None; site_active := None;
|}.

Definition site_b : Site := {|
  site_name := "B"; site_url := "https://b.example";
  site_selector := None; site_ignore_patterns := None;
  site_check_interval := None; site_active := None;
|}.

Definition config_ab : Config := {|
  check_interval := 3600; user_agent := "Mozilla/5.0"; timeout := 30;
  retry_count := 3; retry_delay := 5; data_dir := "monitor_data";
  notification_email := email_off; notification_desktop_enabled := true;
  sites := [site_a; site_b];
|}.

(** A site with a check interval of its own that is 0. *)
Definition eager_site : Site := {|
  site_name := "Eager"; site_url := "https://example.com";
  site_selector := Some "#content"%string; site_ignore_patterns := Some [];
  site_check_interval := Some 0; site_active := Some true;
|}.

(** A world with an empty data directory, where [url] will answer with
    [responses]. *)
Definition world (url : string) (responses : list response) (now : Z) : World := {|
  files := ∅; dirs := ∅; network := {[url := responses]};
  smtp_up := SmtpDelivered; desktop_up := DesktopShown; clock := now; trace := [];
|}.

(** The same, with the snapshot [held] for the site of that URL. *)
Definition world_with_snapshot (url : string) (held : text)
    (responses : list response) (now : Z) : World :=
  with_files {[ (("monitor_data/" +:+ url)%string, "content.txt"%string) := held ]}
    (world url responses now).

(** The world of the two sites: [site_b] has the snapshot [b] and will
    answer with a page that reads [b!]; [site_a] will answer with
    [a_responses]. *)
Definition world_ab (a_responses : list response) : World := {|
  files := {[ ("monitor_data/https://b.example"%string, "content.txt"%string) := txt "b" ]};
  dirs := ∅;
  network := {[ "https://a.example"%string := a_responses;
                "https://b.example"%string := [ResponseText (txt "<p>b!</p>")] ]};
  smtp_up := SmtpDelivered; desktop_up := DesktopShown; clock := 1000; trace := [];
|}.

End Demo.

(** ** Vocabulary of the statements *)

(** The events of [k] failed attempts that are each followed by a retry. *)
Definition retry_events (url : string) (delay : N) (k : nat) : list event :=
  mjoin (replicate k [EvGet url; EvLog WARNING (FetchRetrying url); EvSleep delay]).

(** The script of [url] once [n] requests have been made. *)
Definition consume (url : string) (n : nat) (net : gmap string (list response))
    : gmap string (list response) :=
  match net !! url with
  | Some script => <[url := drop n script]> net
  | None => net
  end.

(** Every attempt [fetch_website_content] is allowed will fail. *)
Definition fetch_fails (config : Config) (w : World) (url : string) : Prop :=
  Forall (λ r, r = RequestException)
         (take (Z.to_nat (retry_count config)) (default [] (network w !! url))).

(** [url] fails [k] times and then answers with [body], within the
    attempts [fetch_website_content] is allowed. *)
Definition fetch_answers (config : Config) (w : World) (url : string)
    (k : nat) (body : text) (rest : list response) : Prop :=
  network w !! url = Some (replicate k RequestException ++ ResponseText body :: rest)
  ∧ Z.of_nat k < retry_count config.

(** The sleeps and the requests of a trace. *)
Definition sleeps_of (t : list event) : list N :=
  omap (λ e, match e with EvSleep d => Some d | _ => None end) t.

Definition requests_of (t : list event) : list string :=
  omap (λ e, match e with EvGet url => Some url | _ => None end) t.

(** A notification left the process. *)
Definition is_notification (e : event) : bool :=
  match e with
  | EvEmail _ _ _ | EvDesktop _ _ => true
  | _ => false
  end.

Definition notifications (t : list event) : list event :=
  filter (λ e, is_notification e = true) t.

(** The change lines [compute_diff] keeps of a delta. *)
Definition changes_of (delta : list text) : list text :=
  filter (λ line, py_startswith TAG_NEW line || py_startswith TAG_OLD line) delta.

(** The events of a fetch whose [n] attempts all fail. *)
Definition exhausted_events (url : string) (delay : N) (n : nat) : list event :=
  match n with
  | O => []
  | S m => retry_events url delay m ++ [EvGet url; EvLog ERROR (FetchFailed url)]
  end.

Definition empty_world (smtp : smtp_outcome) (desktop : desktop_outcome) : World :=
  {| files := ∅; dirs := ∅; network := ∅; smtp_up := smtp; desktop_up := desktop;
     clock := 0; trace := [] |}.

Section Vocabulary.

Context {L : Libraries}.

(** What [check_website_changes] extracts from a payload for a site, and
    the records logged on the way. *)
Definition extracted_content_of (site : Site) (html : text) : text :=
  (extract_content html (default "body"%string (site_selector site))
     (default [] (site_ignore_patterns site))).1.

Definition extraction_log_of (site : Site) (html : text) : list event :=
  (extract_content html (default "body"%string (site_selector site))
     (default [] (site_ignore_patterns site))).2.

(** The check record written at the clock reading [now]. *)
Definition check_record (now : Z) : text :=
  json_dump_check_info now (strftime now).

(** The events of [send_notification], which depend on the
    configuration and on the state of the two channels only. *)
Definition notify_events (site : Site) (diff : text) (config : Config)
    (smtp : smtp_outcome) (desktop : desktop_outcome) : list event :=
  trace (send_notification site diff config (empty_world smtp desktop)).2.

(** The report [format_diff_html] renders at the clock reading [now]. *)
Definition diff_report_of (old_content new_content : option text)
    (name url : string) (now : Z) : text :=
  (format_diff_html old_content new_content name url
     (with_clock now (empty_world SmtpRefused DesktopRaised))).1.

(** The directories [get_site_data_path] leaves. *)
Definition site_dirs (config : Config) (site : Site) (w : World) : gset string :=
  {[site_dir_of config site]} ∪ ({[data_dir config]} ∪ dirs w).

End Vocabulary.

Section Cases.

Context {L : Libraries}.

(** The ways a call of [check_website_changes] can go, by what the
    site answers and what the content file holds. *)
Inductive check_case (site : Site) (config : Config) (force_update : bool)
    (w : World) : Prop :=
  | CaseSkipped :
      fetch_fails config w (site_url site) →
      check_case site config force_update w
  | CaseEmptyPayload k rest :
      fetch_answers config w (site_url site) k [] rest →
      check_case site config force_update w
  | CaseBaseline k html rest :
      fetch_answers config w (site_url site) k html rest →
      html ≠ [] →
      negb (py_truthy (files w !! content_file_of config site)) || force_update = true →
      check_case site config force_update w
  | CaseUnchanged k html rest previous :
      fetch_answers config w (site_url site) k html rest →
      html ≠ [] →
      force_update = false →
      files w !! content_file_of config site = Some previous →
      previous ≠ [] →
      compute_diff (Some previous) (Some (extracted_content_of site html)) = None →
      check_case site config force_update w
  | CaseChanged k html rest previous diff :
      fetch_answers config w (site_url site) k html rest →
      html ≠ [] →
      force_update = false →
      files w !! content_file_of config site = Some previous →
      previous ≠ [] →
      compute_diff (Some previous) (Some (extracted_content_of site html)) = Some diff →
      check_case site config force_update w.

(** The file names that carry a reading of the clock. *)
Definition is_stamped (name : string) : Prop :=
  name = "last_check.json"%string ∨ name = "diff.html"%string.

(** Two stores that, outside the directory of [site], hold the same files,
    with the same contents but for the files that carry a reading of the
    clock. *)
Definition files_agree (config : Config) (site : Site) (fs1 fs2 : gmap path text) : Prop :=
  (∀ p : path, p.1 ≠ site_dir_of config site → ¬ is_stamped p.2 → fs1 !! p = fs2 !! p)
  ∧ (∀ p : path, p.1 ≠ site_dir_of config site → is_Some (fs1 !! p) ↔ is_Some (fs2 !! p)).

(** Two networks that agree on what every URL but that of [site] will
    answer. *)
Definition scripts_agree (site : Site) (n1 n2 : gmap string (list response)) : Prop :=
  ∀ url, url ≠ site_url site → n1 !! url = n2 !! url.

(** Two worlds that may differ in what belongs to [site] (its
    directory, what its URL will answer), in the time (the clock, and
    the files that carry a reading of it), in the directories made and
    in the events so far, and in nothing else. *)
Definition same_elsewhere (config : Config) (site : Site) (w1 w2 : World) : Prop :=
  files_agree config site (files w1) (files w2)
  ∧ scripts_agree site (network w1) (network w2)
  ∧ smtp_up w1 = smtp_up w2
  ∧ desktop_up w1 = desktop_up w2.

(** A site whose directory and URL are not those of [site]. *)
Definition apart_from (config : Config) (site other : Site) : Prop :=
  site_dir_of config other ≠ site_dir_of config site
  ∧ site_url other ≠ site_url site.

End Cases.

(** ** The remaining commands *)


Section Commands.

Context {L : Libraries}.


End Commands.

(** ** Loading the configuration *)

Section LoadConfig.

(** The values of a JSON object. *)
Context {V : Type}.

(** [for key, value in DEFAULT_CONFIG.items():
       if key not in config: config[key] = value] *)
Definition fill_defaults (defaults : list (string * V)) (config : gmap string V)
    : gmap string V :=
  foldl (λ config item,
           match config !! item.1 with
           | Some _ => config
           | None => <[item.1 := item.2]> config
           end)
        config defaults.

(** What [load_config] comes to: [None] with the error that the file does
    not exist, [None] with the error that loading raised, or the
    configuration. *)
Inductive loaded :=
  | ConfigMissing
  | ConfigUnreadable
  | ConfigLoaded (config : gmap string V).

(** [load_config(config_path)], for what the file holds ([None] when there
    is no such file), with [json.load] returning an object or raising. *)
Definition load_config (json_load : text → option (gmap string V))
    (DEFAULT_CONFIG : gmap string V) (held : option text) : loaded :=
  match held with
  | None => ConfigMissing
  | Some held =>
      match json_load held with
      | None => ConfigUnreadable
      | Some config => ConfigLoaded (fill_defaults (map_to_list DEFAULT_CONFIG) config)
      end
  end.

End LoadConfig.

(** ** A second instance of the library interface

    As [Demo.libraries], but with patterns at work: a pattern is a set of
    characters, each of which is deleted from the content, and a pattern
    that holds an opening parenthesis does not compile. *)

Module Strict.

Definition sub_delete (pattern : string) (content : text) : re_result :=
  if bool_decide (40%N ∈ txt pattern) then ReError
  else ReText (filter (λ c, c ∉ txt pattern) content).

Definition libraries : Libraries := {|
  md5_hexdigest := λ url, url;
  soup := text;
  bs_parse := Some;
  soup_select := λ parsed _, Some [parsed];
  soup_str := λ parsed, parsed;
  soup_visible_text := λ parsed, Some (Demo.drop_tags false parsed);
  re_sub_delete := sub_delete;
  differ_compare := Demo.compare;
  html_diff_report := λ _ _ _ _ _, txt "<html>";
  html_no_report := λ _, txt "<p>";
  json_dump_check_info := Demo.dump_check_info;
  json_load_timestamp := Demo.load_timestamp;
  strftime := λ _, txt "now";
  str_lower := λ s, s;
  io_write_sizes := Demo.write_sizes;
|}.

End Strict.

(** ** More vocabulary *)

(** The five files [check_website_changes] keeps for a site. *)
Definition site_files {L : Libraries} (config : Config) (site : Site) : list path :=
  [html_file_of config site; content_file_of config site; diff_file_of config site;
   html_diff_file_of config site; last_check_file_of config site].

(** A site that [find_site_by_name_or_url] takes for [name_or_url]. *)
Definition site_matches {L : Libraries} (name_or_url : string) (site : Site) : Prop :=
  str_lower (site_name site) = str_lower name_or_url
  ∨ str_lower (site_url site) = str_lower name_or_url.

(** The e-mail settings with which [send_email_notification] goes to
    the SMTP server: e-mail is enabled, the five required settings are
    not empty (the port not 0), and there is a recipient. *)
Definition email_configured (e : EmailConfig) : Prop :=
  email_enabled e = true ∧ smtp_server e ≠ ""%string ∧ smtp_port e ≠ 0
  ∧ email_username e ≠ ""%string ∧ email_password e ≠ ""%string
  ∧ from_addr e ≠ ""%string ∧ to_addr e ≠ [].

(** The record logged when a change is detected. *)
Definition is_change_record (e : event) : bool :=
  match e with
  | EvLog INFO (ChangeDetected _) => true
  | _ => false
  end.

(** The code points of a text that are not whitespace. *)
Definition visible (t : text) : text := filter (λ c, py_isspace c = false) t.

(** A line of a delta that [compute_diff] keeps. *)
Definition is_change_line (line : text) : Prop :=
  py_startswith TAG_NEW line = true ∨ py_startswith TAG_OLD line = true.

(** A site the daemon would pass over at the reading [now] of the clock. *)
Definition not_due {L : Libraries} (config : Config) (fs : gmap path text) (now : Z)
    (site : Site) : Prop :=
  default true (site_active site) = false
  ∨ now - last_check_time_of fs (last_check_file_of config site)
    < effective_interval config site.

(** * Properties *)

(** ** Whitespace normalisation *)

Section Normalisation.

Lemma single_spaced_weaken b t : single_spaced b t → single_spaced false t.
Proof.
  destruct t as [|c r]; simpl; [done|].
  destruct (py_isspace c); [|done]. by intros (-> & _ & ?).
Qed.

Lemma collapse_ws_single_spaced b t : single_spaced b (collapse_ws b t).
Proof.
  revert b. induction t as [|c r IH]; intros b; simpl; [done|].
  destruct (py_isspace c) eqn:Hc.
  - destruct b; [apply IH|]. simpl.
    change (py_isspace SPACE) with true. cbv iota. auto.
  - simpl. rewrite Hc. apply IH.
Qed.

Lemma collapse_ws_fixed b t : single_spaced b t → collapse_ws b t = t.
Proof.
  revert b. induction t as [|c r IH]; intros b; simpl; [done|].
  destruct (py_isspace c).
  - intros (-> & -> & Hr). f_equal. by apply IH.
  - intros Hr. f_equal. by apply IH.
Qed.

Lemma single_spaced_app_l b t u : single_spaced b (t ++ u) → single_spaced b t.
Proof.
  revert b. induction t as [|c r IH]; intros b; simpl; [done|].
  destruct (py_isspace c).
  - intros (? & ? & ?). eauto.
  - eauto.
Qed.

Lemma single_spaced_app_r b t u : single_spaced b (t ++ u) → single_spaced false u.
Proof.
  revert b. induction t as [|c r IH]; intros b; simpl.
  - apply single_spaced_weaken.
  - destruct (py_isspace c).
    + intros (? & ? & ?). eauto.
    + eauto.
Qed.

Lemma py_lstrip_suffix t : ∃ k, t = k ++ py_lstrip t.
Proof.
  induction t as [|c r [k IH]]; simpl.
  - by exists [].
  - destruct (py_isspace c).
    + exists (c :: k). simpl. by f_equal.
    + by exists [].
Qed.

Lemma py_rstrip_prefix t : ∃ k, t = py_rstrip t ++ k.
Proof.
  unfold py_rstrip. destruct (py_lstrip_suffix (reverse t)) as [k Hk].
  exists (reverse k). rewrite <- reverse_app, <- Hk. by rewrite reverse_involutive.
Qed.

Lemma single_spaced_strip b t : single_spaced b t → single_spaced false (py_strip t).
Proof.
  intros Ht. unfold py_strip.
  destruct (py_lstrip_suffix t) as [k Hk].
  destruct (py_rstrip_prefix (py_lstrip t)) as [k' Hk'].
  rewrite Hk in Ht. apply single_spaced_app_r in Ht.
  rewrite Hk' in Ht. by apply single_spaced_app_l in Ht.
Qed.

Lemma py_lstrip_starts_clean t : starts_clean (py_lstrip t).
Proof.
  induction t as [|c r IH]; simpl; [done|].
  destruct (py_isspace c) eqn:Hc; [done|]. simpl. done.
Qed.

Lemma py_lstrip_fixed t : starts_clean t → py_lstrip t = t.
Proof. destruct t as [|c r]; simpl; [done|]. by intros ->. Qed.

Lemma py_lstrip_idem t : py_lstrip (py_lstrip t) = py_lstrip t.
Proof. apply py_lstrip_fixed, py_lstrip_starts_clean. Qed.

Lemma py_rstrip_idem t : py_rstrip (py_rstrip t) = py_rstrip t.
Proof. unfold py_rstrip. by rewrite reverse_involutive, py_lstrip_idem. Qed.

Lemma starts_clean_prefix t k : starts_clean (t ++ k) → starts_clean t.
Proof. by destruct t. Qed.

Lemma py_rstrip_starts_clean t : starts_clean t → starts_clean (py_rstrip t).
Proof.
  intros Ht. destruct (py_rstrip_prefix t) as [k Hk].
  rewrite Hk in Ht. by apply starts_clean_prefix in Ht.
Qed.

Lemma py_strip_idem t : py_strip (py_strip t) = py_strip t.
Proof.
  unfold py_strip at 1.
  rewrite (py_lstrip_fixed (py_strip t)).
  - unfold py_strip. apply py_rstrip_idem.
  - apply py_rstrip_starts_clean, py_lstrip_starts_clean.
Qed.

Lemma normalize_whitespace_single_spaced t :
  single_spaced false (normalize_whitespace t).
Proof.
  unfold normalize_whitespace, re_sub_whitespace.
  eapply single_spaced_strip, collapse_ws_single_spaced.
Qed.

(** C9. The extractor's whitespace normalisation (every whitespace run
    collapsed to one space, both ends trimmed) is idempotent: applied to
    a text it already produced, it returns that text unchanged, whatever
    the input text was. *)
Theorem normalize_whitespace_idempotent (t : text) :
  normalize_whitespace (normalize_whitespace t) = normalize_whitespace t.
Proof.
  pose proof (normalize_whitespace_single_spaced t) as Hs.
  unfold normalize_whitespace at 1. unfold re_sub_whitespace.
  rewrite (collapse_ws_fixed _ _ Hs).
  unfold normalize_whitespace. apply py_strip_idem.
Qed.

End Normalisation.

(** ** The monad and the world *)

Section Running.

Lemma bind_run {A B} (m : M A) (f : A → M B) w :
  (m ≫= f) w = f (m w).1 (m w).2.
Proof. reflexivity. Qed.

Lemma world_eq (w w' : World) :
  files w = files w' → dirs w = dirs w' → network w = network w' →
  smtp_up w = smtp_up w' → desktop_up w = desktop_up w' →
  clock w = clock w' → trace w = trace w' → w = w'.
Proof. destruct w, w'; simpl; intros; by subst. Qed.

Lemma consume_lookup url n net script :
  net !! url = Some script → consume url n net = <[url := drop n script]> net.
Proof. unfold consume. by intros ->. Qed.

Lemma consume_0 url net : consume url 0 net = net.
Proof.
  unfold consume. destruct (net !! url) as [script|] eqn:E; [|done].
  by rewrite drop_0, insert_id.
Qed.

Lemma consume_other url url' n net : url ≠ url' → consume url n net !! url' = net !! url'.
Proof.
  intros Hne. unfold consume. destruct (net !! url); [|done].
  by rewrite lookup_insert_ne.
Qed.

End Running.

(** ** The fetcher *)

Section Fetcher.

Context {L : Libraries}.

Lemma requests_get_next url r rest w :
  network w !! url = Some (r :: rest) →
  requests_get url w =
    (r, with_trace (trace w ++ [EvGet url]) (with_network (<[url := rest]> (network w)) w)).
Proof. unfold requests_get. by intros ->. Qed.

Lemma requests_get_unreachable url w :
  default [] (network w !! url) = [] →
  requests_get url w = (RequestException, with_trace (trace w ++ [EvGet url]) w).
Proof. unfold requests_get. by destruct (network w !! url) as [[|??]|]. Qed.

Lemma fetch_attempts_answer config url body rest k :
  ∀ i n w,
    (i + n)%nat = Z.to_nat (retry_count config) → (k < n)%nat →
    network w !! url = Some (replicate k RequestException ++ ResponseText body :: rest) →
    fetch_attempts url config (seq i n) w =
      (Some body,
       {| files := files w; dirs := dirs w;
          network := <[url := rest]> (network w);
          smtp_up := smtp_up w; desktop_up := desktop_up w;
          clock := clock w + Z.of_nat k * Z.of_N (retry_delay config);
          trace := trace w ++ retry_events url (retry_delay config) k ++ [EvGet url] |}).
Proof.
  induction k as [|k IH]; intros i n w Hin Hk Hnet.
  - destruct n as [|n]; [lia|]. simpl in *.
    rewrite bind_run, (requests_get_next _ _ _ _ Hnet). simpl.
    f_equal. apply world_eq; simpl; try done. lia.
  - destruct n as [|n]; [lia|]. simpl in Hnet. simpl.
    rewrite bind_run, (requests_get_next _ _ _ _ Hnet). simpl.
    replace (Z.of_nat i <? retry_count config - 1) with true
      by (symmetry; apply Z.ltb_lt; lia).
    rewrite !bind_run. simpl.
    rewrite (IH (S i) n); simpl; [|lia|lia|by rewrite lookup_insert_eq].
    f_equal. apply world_eq; simpl; try done.
    + by rewrite insert_insert_eq.
    + lia.
    + unfold retry_events. simpl. by rewrite <- !app_assoc.
Qed.

Lemma fetch_attempts_exhausted config url :
  ∀ n i w,
    (i + n)%nat = Z.to_nat (retry_count config) →
    Forall (λ r, r = RequestException) (take n (default [] (network w !! url))) →
    fetch_attempts url config (seq i n) w =
      (None,
       {| files := files w; dirs := dirs w;
          network := consume url n (network w);
          smtp_up := smtp_up w; desktop_up := desktop_up w;
          clock := clock w + Z.of_nat (n - 1) * Z.of_N (retry_delay config);
          trace := trace w ++
            match n with
            | O => []
            | S m => retry_events url (retry_delay config) m
                     ++ [EvGet url; EvLog ERROR (FetchFailed url)]
            end |}).
Proof.
  induction n as [|n IH]; intros i w Hin Hfail.
  - simpl. f_equal. apply world_eq; simpl; try done.
    + by rewrite consume_0.
    + lia.
    + by rewrite app_nil_r.
  - simpl. rewrite bind_run.
    assert (∃ w1, requests_get url w = (RequestException, w1)
                  ∧ files w1 = files w ∧ dirs w1 = dirs w
                  ∧ smtp_up w1 = smtp_up w ∧ desktop_up w1 = desktop_up w
                  ∧ clock w1 = clock w ∧ trace w1 = trace w ++ [EvGet url]
                  ∧ network w1 = consume url 1 (network w)
                  ∧ default [] (network w1 !! url) = drop 1 (default [] (network w !! url)))
      as (w1 & -> & Hf & Hd & Hs & Hdk & Hc & Ht & Hn & Hscript).
    { destruct (network w !! url) as [[|r rest]|] eqn:E.
      - eexists. split; [apply requests_get_unreachable; by rewrite E|].
        simpl. rewrite E. simpl. repeat split; try done.
        by rewrite (consume_lookup _ _ _ _ E), insert_id.
      - simpl in Hfail. apply Forall_cons in Hfail as [-> _].
        eexists. split; [by apply requests_get_next|].
        simpl. rewrite lookup_insert_eq. simpl. repeat split; try done.
        by rewrite (consume_lookup _ _ _ _ E).
      - eexists. split; [apply requests_get_unreachable; by rewrite E|].
        simpl. rewrite E. simpl. repeat split; try done.
        unfold consume. by rewrite E. }
    simpl. destruct n as [|n].
    + replace (Z.of_nat i <? retry_count config - 1) with false
        by (symmetry; apply Z.ltb_ge; lia).
      rewrite !bind_run. simpl. f_equal. apply world_eq; simpl; try done.
      * lia.
      * rewrite Ht. by rewrite <- app_assoc.
    + replace (Z.of_nat i <? retry_count config - 1) with true
        by (symmetry; apply Z.ltb_lt; lia).
      rewrite !bind_run.
      rewrite (IH (S i)); simpl; [|lia|].
      * f_equal. apply world_eq; simpl; try done.
        -- rewrite Hn. unfold consume at 2.
           destruct (network w !! url) as [script|] eqn:E.
           ++ rewrite (consume_lookup _ _ _ (drop 1 script)) by apply lookup_insert_eq.
              rewrite (consume_lookup _ _ _ _ E), insert_insert_eq, drop_drop.
              done.
           ++ unfold consume. by rewrite E.
        -- rewrite Hc. lia.
        -- rewrite Ht. unfold retry_events. simpl. by rewrite <- !app_assoc.
      * rewrite Hscript, take_drop_commute.
        apply Forall_drop. exact Hfail.
Qed.

End Fetcher.

(** ** The store *)

Section Store.

Context {L : Libraries}.

Lemma concat_cut_text sizes t : concat (cut_text sizes t) = t.
Proof.
  revert t. induction sizes as [|n sizes IH]; intros t; simpl; [apply app_nil_r|].
  by rewrite IH, take_drop.
Qed.

Lemma run_steps_cons (step : M unit) steps w :
  run_steps (step :: steps) w = run_steps steps (step w).2.
Proof. reflexivity. Qed.

Lemma with_files_same w : with_files (files w) w = w.
Proof. by destruct w. Qed.

Lemma fs_write_held p piece w held :
  files w !! p = Some held →
  (fs_write p piece w).2 = with_files (<[p := held ++ piece]> (files w)) w.
Proof.
  intros Hheld. unfold fs_write. cbn [snd]. f_equal.
  apply map_eq. intros q. destruct (decide (p = q)) as [<-|Hne].
  - by rewrite lookup_alter_eq, lookup_insert_eq, Hheld.
  - by rewrite lookup_alter_ne, lookup_insert_ne.
Qed.

(** The pieces written one after the other come to their concatenation. *)
Lemma fs_writes_run p pieces :
  ∀ w held, files w !! p = Some held →
    run_steps (fs_write p <$> pieces) w
    = (tt, with_files (<[p := held ++ concat pieces]> (files w)) w).
Proof.
  induction pieces as [|piece pieces IH]; intros w held Hheld.
  - cbn. by rewrite app_nil_r, insert_id, with_files_same.
  - rewrite fmap_cons, run_steps_cons, (fs_write_held _ _ _ held Hheld).
    rewrite (IH _ (held ++ piece)) by (cbn; apply lookup_insert_eq).
    cbn [concat files with_files]. rewrite insert_insert_eq, app_assoc. done.
Qed.

Lemma write_text_run p content w :
  write_text p content w = (tt, with_files (<[p := content]> (files w)) w).
Proof.
  unfold write_text, write_steps. rewrite run_steps_cons.
  rewrite (fs_writes_run _ _ _ []) by (cbn; apply lookup_insert_eq).
  cbn [fs_open_w snd files with_files]. by rewrite insert_insert_eq, concat_cut_text.
Qed.

Lemma save_content_run content p w :
  save_content content p w = (true, with_files (<[p := content]> (files w)) w).
Proof. unfold save_content. by rewrite bind_run, write_text_run. Qed.

(** The last of the worlds the steps go through is the one they leave. *)
Lemma stages_last (step : M unit) steps :
  ∀ w, last (stages (step :: steps) w) = Some (run_steps (step :: steps) w).2.
Proof.
  revert step. induction steps as [|next steps IH]; intros step w; [done|].
  rewrite run_steps_cons. rewrite <- IH. done.
Qed.

(** While the pieces are written the file holds the first of them. *)
Lemma fs_write_stages p pieces :
  ∀ w held, files w !! p = Some held →
    files <$> stages (fs_write p <$> pieces) w
    = (λ k, <[p := held ++ concat (take k pieces)]> (files w)) <$> seq 1 (length pieces).
Proof.
  induction pieces as [|piece pieces IH]; intros w held Hheld; [done|].
  rewrite fmap_cons. cbn [stages length seq fmap list_fmap].
  rewrite (fs_write_held _ _ _ held Hheld). cbn [files with_files take concat].
  rewrite app_nil_r. f_equal.
  rewrite (IH _ (held ++ piece)) by (cbn; apply lookup_insert_eq).
  rewrite <- (fmap_S_seq 1), <- list_fmap_compose. apply list_fmap_ext.
  intros _ k _. cbn [compose take concat files with_files].
  by rewrite insert_insert_eq, app_assoc.
Qed.

Lemma write_stages p content w :
  let pieces := cut_text (io_write_sizes content) content in
  files <$> stages (write_steps p content) w
  = (λ k, <[p := concat (take k pieces)]> (files w)) <$> seq 0 (S (length pieces)).
Proof.
  intros pieces. unfold write_steps. fold pieces.
  cbn [stages seq fmap list_fmap fs_open_w snd files with_files take concat]. f_equal.
  rewrite (fs_write_stages _ _ _ []) by (cbn; apply lookup_insert_eq).
  apply list_fmap_ext. intros _ k _. cbn [files with_files app].
  by rewrite insert_insert_eq.
Qed.

(** The first pieces of a text are a beginning of it. *)
Lemma concat_take_prefix (pieces : list text) k :
  ∃ n, concat (take k pieces) = take n (concat pieces).
Proof.
  exists (length (concat (take k pieces))).
  transitivity (take (length (concat (take k pieces)))
                  (concat (take k pieces ++ drop k pieces))).
  - by rewrite concat_app, take_app_length.
  - by rewrite take_drop.
Qed.

End Store.


(** ** The differencer *)

Section Differencer.

Context {L : Libraries}.

Lemma py_startswith_nonempty c tag line :
  py_startswith (c :: tag) line = true → line ≠ [].
Proof. by destruct line. Qed.

Lemma py_join_nonempty sep line rest : line ≠ [] → py_join sep (line :: rest) ≠ [].
Proof. destruct line, rest; simpl; congruence. Qed.

(** A line that opens with the common-line code opens with neither of
    the change codes. *)
Lemma same_line_is_no_change line :
  py_startswith TAG_SAME line = true →
  py_startswith TAG_NEW line || py_startswith TAG_OLD line = false.
Proof.
  change TAG_SAME with [32; 32]%N. change TAG_NEW with [43; 32]%N.
  change TAG_OLD with [45; 32]%N.
  destruct line as [|c line]; [done|]. cbn [py_startswith].
  destruct (N.eqb_spec 32 c) as [<-|]; [done|]. by rewrite andb_false_l.
Qed.

Lemma change_line_is_not_same line :
  py_startswith TAG_NEW line || py_startswith TAG_OLD line = true →
  py_startswith TAG_SAME line = false.
Proof.
  intros Hc. destruct (py_startswith TAG_SAME line) eqn:Hs; [|done].
  apply same_line_is_no_change in Hs. congruence.
Qed.

#[local] Opaque py_startswith.

Lemma compute_diff_unfold old_content new_content :
  compute_diff old_content new_content =
    if py_truthy old_content && py_truthy new_content
    then
      let changes := changes_of (differ_compare (py_splitlines (default [] old_content))
                                                (py_splitlines (default [] new_content))) in
      match changes with
      | [] => None
      | _ :: _ => Some (py_join LF changes)
      end
    else None.
Proof.
  unfold compute_diff.
  destruct old_content as [[|??]|], new_content as [[|??]|]; reflexivity.
Qed.

(** A diff, when there is one, is a non-empty text. *)
Lemma compute_diff_truthy old_content new_content diff :
  compute_diff old_content new_content = Some diff → py_truthy (Some diff) = true.
Proof.
  rewrite compute_diff_unfold.
  destruct (py_truthy old_content && py_truthy new_content); [|done].
  cbv zeta. destruct (changes_of _) as [|line rest] eqn:E; [done|]. intros [= <-].
  assert (line ∈ changes_of
            (differ_compare (py_splitlines (default [] old_content))
                            (py_splitlines (default [] new_content)))) as Hin
    by (rewrite E; left).
  apply list_elem_of_filter in Hin as [Hline _].
  assert (line ≠ []) as Hne.
  { apply orb_True in Hline as [H|H]; apply Is_true_true in H;
      by apply py_startswith_nonempty in H. }
  change (py_truthy (Some (py_join LF (line :: rest))) = true).
  pose proof (py_join_nonempty LF line rest Hne) as Hjoin.
  destruct (py_join LF (line :: rest)) eqn:Ej; [by destruct Hjoin|done].
Qed.

Lemma py_truthy_compute_diff old_content new_content :
  py_truthy (compute_diff old_content new_content)
  = bool_decide (is_Some (compute_diff old_content new_content)).
Proof.
  destruct (compute_diff old_content new_content) as [diff|] eqn:E.
  - rewrite (compute_diff_truthy _ _ _ E). symmetry. by apply bool_decide_eq_true.
  - done.
Qed.

Lemma changes_of_same delta :
  Forall (λ line, py_startswith TAG_SAME line = true) delta → changes_of delta = [].
Proof.
  induction 1 as [|line delta Hline _ IH]; [done|].
  unfold changes_of in *. rewrite filter_cons_False; [done|].
  rewrite (same_line_is_no_change _ Hline). by intros [].
Qed.

(** Without change lines, both sides restored from a delta are its
    common lines. *)
Lemma restore_without_changes delta :
  changes_of delta = [] →
  difflib_restore TAG_OLD delta = difflib_restore TAG_NEW delta.
Proof.
  unfold changes_of, difflib_restore. intros Hnone. f_equal. revert Hnone.
  induction delta as [|line delta IH]; [done|].
  rewrite !filter_cons.
  destruct (py_startswith TAG_NEW line), (py_startswith TAG_OLD line); simpl; try done.
  rewrite !orb_false_r. intros Hrest.
  destruct (py_startswith TAG_SAME line); simpl; rewrite IH; done.
Qed.

Context {laws : DifferLaws L}.

Lemma compute_diff_same_lines (old new : text) :
  py_splitlines old = py_splitlines new → compute_diff (Some old) (Some new) = None.
Proof.
  intros Hlines. rewrite compute_diff_unfold. simpl. rewrite Hlines.
  cbv zeta. rewrite changes_of_same by apply differ_same.
  by destruct old, new.
Qed.

Lemma compute_diff_other_lines (old new : text) :
  old ≠ [] → new ≠ [] → py_splitlines old ≠ py_splitlines new →
  is_Some (compute_diff (Some old) (Some new)).
Proof.
  intros Ho Hn Hlines. rewrite compute_diff_unfold. simpl.
  destruct old, new; try done. simpl. cbv zeta.
  destruct (changes_of _) as [|line rest] eqn:E; [|by eexists].
  exfalso. apply Hlines.
  apply restore_without_changes in E.
  by rewrite differ_restore_old, differ_restore_new in E.
Qed.

#[local] Transparent py_startswith.

End Differencer.

(** ** Reading in text mode *)

Section Reading.

Context {L : Libraries}.

Lemma py_universal_newlines_cr r :
  py_universal_newlines (13%N :: r)
  = 10%N :: match r with
            | c' :: r' =>
                if (c' =? 10)%N then py_universal_newlines r' else py_universal_newlines r
            | [] => []
            end.
Proof. reflexivity. Qed.

Lemma py_universal_newlines_other c r :
  (c =? 13)%N = false →
  py_universal_newlines (c :: r) = c :: py_universal_newlines r.
Proof. intros Hc. cbn [py_universal_newlines]. by rewrite Hc. Qed.

(** A text without a carriage return is read as it was written. *)
Lemma py_universal_newlines_fixed t :
  13%N ∉ t → py_universal_newlines t = t.
Proof.
  induction t as [|c r IH]; [done|]. intros [Hc Hr]%not_elem_of_cons.
  rewrite py_universal_newlines_other by (by apply N.eqb_neq). by rewrite IH.
Qed.

(** [splitlines] does not tell a text from what is read back of it. *)
Lemma splitlines_from_universal t :
  ∀ cur, splitlines_from cur (py_universal_newlines t) = splitlines_from cur t.
Proof.
  remember (length t) as n eqn:Hn. revert t Hn.
  induction n as [n IH] using lt_wf_ind. intros t -> cur.
  destruct t as [|c r]; [done|].
  destruct (c =? 13)%N eqn:Hc.
  - apply N.eqb_eq in Hc as ->. rewrite py_universal_newlines_cr.
    cbn [splitlines_from N.eqb Pos.eqb py_islinebreak].
    change (py_islinebreak 10) with true. cbv iota.
    destruct r as [|c' r']; [done|].
    destruct (c' =? 10)%N; f_equal; eapply IH; try reflexivity; cbn; lia.
  - rewrite py_universal_newlines_other by done. cbn [splitlines_from]. rewrite Hc.
    destruct (py_islinebreak c); [f_equal|]; eapply IH; try reflexivity; cbn; lia.
Qed.

Lemma py_splitlines_universal t :
  py_splitlines (py_universal_newlines t) = py_splitlines t.
Proof. apply splitlines_from_universal. Qed.

Lemma py_truthy_universal held :
  py_truthy (py_universal_newlines <$> held) = py_truthy held.
Proof.
  destruct held as [[|c r]|]; try done.
  change (py_universal_newlines <$> Some (c :: r))
    with (Some (py_universal_newlines (c :: r))).
  cbn [py_universal_newlines]. by destruct (c =? 13)%N.
Qed.

(** Neither does [compute_diff], nor the report. *)
Lemma compute_diff_universal held new_content :
  compute_diff (py_universal_newlines <$> held) new_content = compute_diff held new_content.
Proof.
  rewrite !compute_diff_unfold, py_truthy_universal.
  destruct held as [t|]; [|done].
  change (py_universal_newlines <$> Some t) with (Some (py_universal_newlines t)).
  cbn [default from_option id]. by rewrite py_splitlines_universal.
Qed.

Lemma format_diff_html_universal held new_content name url :
  format_diff_html (py_universal_newlines <$> held) new_content name url
  = format_diff_html held new_content name url.
Proof.
  destruct held as [t|]; [|done]. destruct t as [|c r]; [done|].
  pose proof (py_splitlines_universal (c :: r)) as Hlines.
  change (py_universal_newlines <$> Some (c :: r))
    with (Some (py_universal_newlines (c :: r))).
  destruct (py_universal_newlines (c :: r)) as [|c2 r2] eqn:E.
  { cbn in E. by destruct (c =? 13)%N. }
  destruct new_content as [[|c' new]|]; try done.
  unfold format_diff_html. by rewrite Hlines.
Qed.

Lemma fs_read_run p w : fs_read p w = (py_universal_newlines <$> files w !! p, w).
Proof. reflexivity. Qed.

Lemma load_content_run p w :
  load_content p w = (py_universal_newlines <$> files w !! p, w).
Proof. reflexivity. Qed.

End Reading.

(** ** One check, case by case *)


Section Check.

Context {L : Libraries}.

Lemma notifications_app t u : notifications (t ++ u) = notifications t ++ notifications u.
Proof. apply filter_app. Qed.

Lemma notifications_logs t :
  Forall (λ e, is_notification e = false) t → notifications t = [].
Proof.
  induction 1 as [|e t He _ IH]; [done|].
  unfold notifications in *. rewrite filter_cons_False; [done|]. by rewrite He.
Qed.

Lemma retry_events_quiet url delay k :
  Forall (λ e, is_notification e = false) (retry_events url delay k).
Proof.
  unfold retry_events. induction k as [|k IH]; simpl; [constructor|].
  repeat constructor. exact IH.
Qed.

Lemma exhausted_events_quiet url delay n :
  Forall (λ e, is_notification e = false) (exhausted_events url delay n).
Proof.
  destruct n as [|m]; simpl; [constructor|].
  apply Forall_app. split; [apply retry_events_quiet|by repeat constructor].
Qed.

Lemma apply_ignore_patterns_quiet patterns content :
  Forall (λ e, is_notification e = false) (apply_ignore_patterns patterns content).2.
Proof.
  revert content. induction patterns as [|p ps IH]; intros content; simpl; [constructor|].
  destruct (re_sub_delete p content); simpl; [apply IH|].
  constructor; [done|apply IH].
Qed.

Lemma extract_content_quiet html selector patterns :
  Forall (λ e, is_notification e = false) (extract_content html selector patterns).2.
Proof.
  unfold extract_content.
  assert (∀ r, select_content html selector = Some r →
               Forall (λ e, is_notification e = false) r.2) as Hsel.
  { unfold select_content. intros r.
    destruct (bs_parse html) as [parsed|]; simpl; [|done].
    case_bool_decide.
    - intros [= <-]. constructor.
    - destruct (soup_select parsed selector) as [[|e es]|]; simpl; [| |done].
      + intros [= <-]. by repeat constructor.
      + intros [= <-]. constructor. }
  destruct (select_content html selector) as [[content logged]|]; [|by repeat constructor].
  specialize (Hsel _ eq_refl). simpl in Hsel.
  pose proof (apply_ignore_patterns_quiet patterns content) as Hpat.
  destruct (bs_parse (apply_ignore_patterns patterns content).1 ≫= soup_visible_text); simpl.
  - apply Forall_app. by split.
  - rewrite !Forall_app. repeat split; try done. by repeat constructor.
Qed.

Lemma extraction_log_quiet site html : notifications (extraction_log_of site html) = [].
Proof. apply notifications_logs, extract_content_quiet. Qed.

Lemma send_notification_run site diff config w :
  (send_notification site diff config w).2 =
    with_trace (trace w ++ notify_events site diff config (smtp_up w) (desktop_up w)) w.
Proof.
  unfold notify_events, send_notification, send_email_notification,
    send_desktop_notification.
  destruct (email_enabled (notification_email config)),
    (notification_desktop_enabled config),
    (email_missing_field (notification_email config)),
    (to_addr (notification_email config)),
    (smtp_up w) eqn:Es, (desktop_up w) eqn:Ed;
    rewrite ?bind_run; simpl; rewrite ?Es, ?Ed; simpl;
    apply world_eq; simpl; rewrite ?Es, ?Ed, ?app_nil_r, <- ?app_assoc; done.
Qed.

Lemma format_diff_html_run old_content new_content name url w :
  format_diff_html old_content new_content name url w =
    (diff_report_of old_content new_content name url (clock w), w).
Proof.
  unfold diff_report_of, format_diff_html.
  by destruct old_content as [[|??]|], new_content as [[|??]|].
Qed.

Ltac step := simpl; rewrite bind_run; simpl.
Ltac run :=
  simpl;
  repeat (first [ rewrite save_content_run | rewrite write_text_run
                | rewrite load_content_run
                | rewrite py_truthy_universal | rewrite compute_diff_universal
                | rewrite format_diff_html_universal
                | rewrite format_diff_html_run | rewrite send_notification_run
                | rewrite bind_run ]; simpl).

Lemma fetch_website_content_answers config w url k body rest :
  fetch_answers config w url k body rest →
  fetch_website_content url config w =
    (Some body,
     {| files := files w; dirs := dirs w;
        network := <[url := rest]> (network w);
        smtp_up := smtp_up w; desktop_up := desktop_up w;
        clock := clock w + Z.of_nat k * Z.of_N (retry_delay config);
        trace := trace w ++ retry_events url (retry_delay config) k ++ [EvGet url] |}).
Proof.
  intros [Hnet Hk]. unfold fetch_website_content.
  apply fetch_attempts_answer; [lia|lia|done].
Qed.

Lemma fetch_website_content_fails config w url :
  fetch_fails config w url →
  let n := Z.to_nat (retry_count config) in
  fetch_website_content url config w =
    (None,
     {| files := files w; dirs := dirs w;
        network := consume url n (network w);
        smtp_up := smtp_up w; desktop_up := desktop_up w;
        clock := clock w + Z.of_nat (n - 1) * Z.of_N (retry_delay config);
        trace := trace w ++ exhausted_events url (retry_delay config) n |}).
Proof.
  intros Hfail n. unfold fetch_website_content.
  by apply fetch_attempts_exhausted.
Qed.

#[local] Opaque save_content write_text load_content fetch_website_content extract_content
  compute_diff send_notification format_diff_html.

(** The fetch fails: the cycle is skipped. *)
Lemma check_skipped site config force_update w :
  fetch_fails config w (site_url site) →
  let n := Z.to_nat (retry_count config) in
  check_website_changes site config force_update w =
    (false,
     {| files := files w; dirs := site_dirs config site w;
        network := consume (site_url site) n (network w);
        smtp_up := smtp_up w; desktop_up := desktop_up w;
        clock := clock w + Z.of_nat (n - 1) * Z.of_N (retry_delay config);
        trace := trace w ++ [EvLog INFO (Checking (site_name site) (site_url site))]
                   ++ exhausted_events (site_url site) (retry_delay config) n
                   ++ [EvLog ERROR (CannotFetch (site_name site))] |}).
Proof.
  intros Hfail n. unfold check_website_changes. step. step.
  rewrite bind_run, fetch_website_content_fails by exact Hfail.
  step. unfold site_dirs. f_equal. apply world_eq; simpl; try done.
  by rewrite <- !app_assoc.
Qed.

(** The fetch returns an empty payload: the cycle is skipped too. *)
Lemma check_empty_payload site config force_update w k rest :
  fetch_answers config w (site_url site) k [] rest →
  check_website_changes site config force_update w =
    (false,
     {| files := files w; dirs := site_dirs config site w;
        network := <[site_url site := rest]> (network w);
        smtp_up := smtp_up w; desktop_up := desktop_up w;
        clock := clock w + Z.of_nat k * Z.of_N (retry_delay config);
        trace := trace w ++ [EvLog INFO (Checking (site_name site) (site_url site))]
                   ++ retry_events (site_url site) (retry_delay config) k
                   ++ [EvGet (site_url site)]
                   ++ [EvLog ERROR (CannotFetch (site_name site))] |}).
Proof.
  intros Hfetch. unfold check_website_changes. step. step.
  rewrite bind_run, (fetch_website_content_answers _ _ _ k [] rest) by exact Hfetch.
  step. unfold site_dirs. f_equal. apply world_eq; simpl; try done.
  by rewrite <- !app_assoc.
Qed.

(** No usable baseline, or a forced update: the baseline is written. *)
Lemma check_baseline site config force_update w k html rest :
  fetch_answers config w (site_url site) k html rest →
  html ≠ [] →
  negb (py_truthy (files w !! content_file_of config site)) || force_update = true →
  let now := clock w + Z.of_nat k * Z.of_N (retry_delay config) in
  check_website_changes site config force_update w =
    (false,
     {| files := <[last_check_file_of config site := check_record now]>
                   (<[content_file_of config site := extracted_content_of site html]>
                      (<[html_file_of config site := html]> (files w)));
        dirs := site_dirs config site w;
        network := <[site_url site := rest]> (network w);
        smtp_up := smtp_up w; desktop_up := desktop_up w;
        clock := now;
        trace := trace w ++ [EvLog INFO (Checking (site_name site) (site_url site))]
                   ++ retry_events (site_url site) (retry_delay config) k
                   ++ [EvGet (site_url site)]
                   ++ extraction_log_of site html
                   ++ [EvLog INFO (NewBaseline (site_name site))] |}).
Proof.
  intros Hfetch Hhtml Hprev now. unfold check_website_changes. step. step.
  rewrite bind_run, (fetch_website_content_answers _ _ _ k html rest) by exact Hfetch.
  destruct html as [|c html]; [done|]. run.
  rewrite lookup_insert_ne by done.
  unfold content_file_of in Hprev. rewrite Hprev.
  unfold write_last_check. run.
  f_equal. apply world_eq; simpl; try done.
  by rewrite <- !app_assoc.
Qed.

(** A usable baseline and an empty diff: nothing but the payload and
    the check record is written. *)
Lemma check_unchanged site config w k html rest previous :
  fetch_answers config w (site_url site) k html rest →
  html ≠ [] →
  files w !! content_file_of config site = Some previous →
  previous ≠ [] →
  compute_diff (Some previous) (Some (extracted_content_of site html)) = None →
  let now := clock w + Z.of_nat k * Z.of_N (retry_delay config) in
  check_website_changes site config false w =
    (false,
     {| files := <[last_check_file_of config site := check_record now]>
                   (<[html_file_of config site := html]> (files w));
        dirs := site_dirs config site w;
        network := <[site_url site := rest]> (network w);
        smtp_up := smtp_up w; desktop_up := desktop_up w;
        clock := now;
        trace := trace w ++ [EvLog INFO (Checking (site_name site) (site_url site))]
                   ++ retry_events (site_url site) (retry_delay config) k
                   ++ [EvGet (site_url site)]
                   ++ extraction_log_of site html
                   ++ [EvLog INFO (NoChange (site_name site))] |}).
Proof.
  intros Hfetch Hhtml Hprev Hne Hdiff now. unfold check_website_changes. step. step.
  rewrite bind_run, (fetch_website_content_answers _ _ _ k html rest) by exact Hfetch.
  destruct html as [|c html]; [done|]. run.
  rewrite lookup_insert_ne by done.
  unfold content_file_of in Hprev. rewrite Hprev.
  destruct previous as [|p previous]; [done|]. simpl.
  unfold write_last_check. run.
  unfold extracted_content_of in Hdiff. rewrite Hdiff. run.
  f_equal. apply world_eq; simpl; try done.
  by rewrite <- !app_assoc.
Qed.

(** A usable baseline and a diff: the diff, the report and the new
    snapshot are written, then the notification is sent. *)
Lemma check_changed site config w k html rest previous diff :
  fetch_answers config w (site_url site) k html rest →
  html ≠ [] →
  files w !! content_file_of config site = Some previous →
  previous ≠ [] →
  compute_diff (Some previous) (Some (extracted_content_of site html)) = Some diff →
  let now := clock w + Z.of_nat k * Z.of_N (retry_delay config) in
  check_website_changes site config false w =
    (true,
     {| files :=
          <[content_file_of config site := extracted_content_of site html]>
            (<[html_diff_file_of config site :=
                 diff_report_of (Some previous) (Some (extracted_content_of site html))
                   (site_name site) (site_url site) now]>
               (<[diff_file_of config site := diff]>
                  (<[last_check_file_of config site := check_record now]>
                     (<[html_file_of config site := html]> (files w)))));
        dirs := site_dirs config site w;
        network := <[site_url site := rest]> (network w);
        smtp_up := smtp_up w; desktop_up := desktop_up w;
        clock := now;
        trace := trace w ++ [EvLog INFO (Checking (site_name site) (site_url site))]
                   ++ retry_events (site_url site) (retry_delay config) k
                   ++ [EvGet (site_url site)]
                   ++ extraction_log_of site html
                   ++ [EvLog INFO (ChangeDetected (site_name site))]
                   ++ notify_events site diff config (smtp_up w) (desktop_up w) |}).
Proof.
  intros Hfetch Hhtml Hprev Hne Hdiff now. unfold check_website_changes. step. step.
  rewrite bind_run, (fetch_website_content_answers _ _ _ k html rest) by exact Hfetch.
  destruct html as [|c html]; [done|]. run.
  rewrite lookup_insert_ne by done.
  unfold content_file_of in Hprev. rewrite Hprev.
  destruct previous as [|p previous]; [done|]. simpl.
  unfold write_last_check. run.
  unfold extracted_content_of in Hdiff. rewrite Hdiff.
  rewrite (compute_diff_truthy _ _ _ Hdiff). run.
  f_equal. apply world_eq; simpl; try done.
  by rewrite <- !app_assoc.
Qed.

#[local] Transparent save_content write_text load_content fetch_website_content
  extract_content compute_diff send_notification format_diff_html.

End Check.

(** ** The sample libraries keep the laws *)

Section DemoLaws.

Lemma py_startswith_app tag line : py_startswith tag (tag ++ line) = true.
Proof. induction tag as [|c tag IH]; simpl; [done|]. rewrite N.eqb_refl. exact IH. Qed.

Lemma restore_kept tag lines :
  length tag = 2%nat → difflib_restore tag (app tag <$> lines) = lines.
Proof.
  intros Hlen. unfold difflib_restore.
  induction lines as [|line lines IH]; [done|].
  rewrite fmap_cons, filter_cons_True, fmap_cons, IH.
  - by rewrite drop_app_length'.
  - rewrite py_startswith_app. by rewrite orb_true_r.
Qed.

Lemma restore_dropped tag other lines :
  (∀ line, py_startswith TAG_SAME (other ++ line) || py_startswith tag (other ++ line) = false) →
  difflib_restore tag (app other <$> lines) = [].
Proof.
  intros Hother. unfold difflib_restore.
  induction lines as [|line lines IH]; [done|].
  rewrite fmap_cons, filter_cons_False; [done|]. rewrite Hother. by intros [].
Qed.

Lemma restore_app tag delta delta' :
  difflib_restore tag (delta ++ delta') = difflib_restore tag delta ++ difflib_restore tag delta'.
Proof. unfold difflib_restore. by rewrite filter_app, fmap_app. Qed.

Lemma restore_old_removed_added a b :
  difflib_restore TAG_OLD ((app TAG_OLD <$> a) ++ (app TAG_NEW <$> b)) = a.
Proof.
  rewrite restore_app, restore_kept by done.
  rewrite restore_dropped; [by rewrite app_nil_r|]. intros line. reflexivity.
Qed.

Lemma restore_new_removed_added a b :
  difflib_restore TAG_NEW ((app TAG_OLD <$> a) ++ (app TAG_NEW <$> b)) = b.
Proof.
  rewrite restore_app, (restore_kept TAG_NEW) by done.
  rewrite restore_dropped; [done|]. intros line. reflexivity.
Qed.

Lemma demo_compare_nil_l b :
  Demo.compare [] b = (app TAG_OLD <$> []) ++ (app TAG_NEW <$> b).
Proof. by destruct b. Qed.

Lemma demo_compare_nil_r a :
  Demo.compare a [] = (app TAG_OLD <$> a) ++ (app TAG_NEW <$> []).
Proof. by destruct a. Qed.

Lemma demo_compare_cons x a y b :
  Demo.compare (x :: a) (y :: b) =
    if decide (x = y) then (TAG_SAME ++ x) :: Demo.compare a b
    else (app TAG_OLD <$> x :: a) ++ (app TAG_NEW <$> y :: b).
Proof. reflexivity. Qed.

Lemma demo_restore_old a b : difflib_restore TAG_OLD (Demo.compare a b) = a.
Proof.
  revert b. induction a as [|x a IH]; intros b.
  - rewrite demo_compare_nil_l. apply restore_old_removed_added.
  - destruct b as [|y b]; [rewrite demo_compare_nil_r; apply restore_old_removed_added|].
    rewrite demo_compare_cons. case_decide; [|apply restore_old_removed_added].
    unfold difflib_restore in *. rewrite filter_cons_True, fmap_cons, IH.
    + by rewrite drop_app_length'.
    + by rewrite py_startswith_app.
Qed.

Lemma demo_restore_new a b : difflib_restore TAG_NEW (Demo.compare a b) = b.
Proof.
  revert b. induction a as [|x a IH]; intros b.
  - rewrite demo_compare_nil_l. apply restore_new_removed_added.
  - destruct b as [|y b]; [rewrite demo_compare_nil_r; apply restore_new_removed_added|].
    rewrite demo_compare_cons. case_decide as Hxy; [|apply restore_new_removed_added].
    subst y. unfold difflib_restore in *. rewrite filter_cons_True, fmap_cons, IH.
    + by rewrite drop_app_length'.
    + by rewrite py_startswith_app.
Qed.

Lemma demo_differ_laws : DifferLaws Demo.libraries.
Proof.
  split.
  - apply demo_restore_old.
  - apply demo_restore_new.
  - intros a. change (differ_compare a a) with (Demo.compare a a).
    induction a as [|x a IH]; [constructor|].
    rewrite demo_compare_cons, decide_True by done.
    constructor; [apply py_startswith_app|exact IH].
Qed.

Lemma demo_untxt_txt s : Demo.untxt (txt s) = s.
Proof.
  unfold Demo.untxt, txt. rewrite <- list_fmap_compose.
  rewrite (list_fmap_ext _ id); [|intros ???; apply ascii_N_embedding].
  rewrite list_fmap_id. apply String.string_of_list_ascii_of_string.
Qed.

Lemma demo_json_laws : JsonLaws Demo.libraries.
Proof.
  split. intros ts dt. simpl. unfold Demo.load_timestamp, Demo.dump_check_info.
  rewrite demo_untxt_txt, NilZero.isi.
  - simpl. by rewrite DecimalZ.of_to.
  - destruct ts as [|p|p]; simpl; try done.
    intros [= Hnil]. by apply Unsigned.to_uint_nonnil in Hnil.
  - destruct ts as [|p|p]; simpl; try done.
    intros [= Hnil]. by apply Unsigned.to_uint_nonnil in Hnil.
Qed.

End DemoLaws.

(** ** The first check of a site *)

Section FirstCheck.

Context {L : Libraries}.




(** C10.  On a cycle that finds a non-empty baseline and computes an
    empty diff, [check_website_changes] writes the payload file and the
    check record and nothing else: the baseline, the last diff and the
    HTML report (and every other file) are as they were, [False] is
    returned and no notification is sent. *)
Theorem unchanged_cycle_writes_payload_and_check_record_only
    (site : Site) (config : Config) (w : World)
    (k : nat) (html : text) (rest : list response) (previous : text) :
  fetch_answers config w (site_url site) k html rest →
  files w !! content_file_of config site = Some previous →
  previous ≠ [] →
  compute_diff (Some previous) (Some (extracted_content_of site html)) = None →
  let checked := check_website_changes site config false w in
  checked.1 = false
  ∧ (∀ p, p ≠ html_file_of config site → p ≠ last_check_file_of config site →
          files checked.2 !! p = files w !! p)
  ∧ files checked.2 !! content_file_of config site = Some previous
  ∧ files checked.2 !! diff_file_of config site = files w !! diff_file_of config site
  ∧ files checked.2 !! html_diff_file_of config site
    = files w !! html_diff_file_of config site
  ∧ notifications (trace checked.2) = notifications (trace w).
Proof.
  intros Hfetch Hprev Hne Hdiff checked. subst checked.
  destruct html as [|c html].
  - rewrite (check_empty_payload site config false w k rest Hfetch).
    cbn [fst snd files trace clock].
    repeat split; try done.
    rewrite !notifications_app.
    rewrite (notifications_logs (retry_events _ _ _)) by apply retry_events_quiet.
    by rewrite !app_nil_r.
  - rewrite (check_unchanged site config w k (c :: html) rest previous); try done.
    cbn [fst snd files trace clock]. repeat split.
    + intros p Hp Hq. by rewrite !lookup_insert_ne.
    + by rewrite !lookup_insert_ne.
    + by rewrite !lookup_insert_ne.
    + by rewrite !lookup_insert_ne.
    + rewrite !notifications_app, extraction_log_quiet.
      rewrite (notifications_logs (retry_events _ _ _)) by apply retry_events_quiet.
      by rewrite !app_nil_r.
Qed.

End FirstCheck.

(** ** Retries *)

Section Retries.

Context {L : Libraries}.

Lemma sleeps_of_app t u : sleeps_of (t ++ u) = sleeps_of t ++ sleeps_of u.
Proof. apply omap_app. Qed.

Lemma requests_of_app t u : requests_of (t ++ u) = requests_of t ++ requests_of u.
Proof. apply omap_app. Qed.

Lemma sleeps_of_retry_events url delay k :
  sleeps_of (retry_events url delay k) = replicate k delay.
Proof.
  unfold retry_events. induction k as [|k IH]; [done|].
  simpl. f_equal. exact IH.
Qed.

Lemma requests_of_retry_events url delay k :
  requests_of (retry_events url delay k) = replicate k url.
Proof.
  unfold retry_events. induction k as [|k IH]; [done|].
  simpl. f_equal. exact IH.
Qed.

Lemma sleeps_of_exhausted_events url delay n :
  sleeps_of (exhausted_events url delay n) = replicate (n - 1) delay.
Proof.
  destruct n as [|m]; [done|]. simpl.
  rewrite sleeps_of_app, sleeps_of_retry_events, Nat.sub_0_r. simpl.
  by rewrite app_nil_r.
Qed.

Lemma requests_of_exhausted_events url delay n :
  requests_of (exhausted_events url delay n) = replicate n url.
Proof.
  destruct n as [|m]; [done|]. simpl.
  rewrite requests_of_app, requests_of_retry_events. simpl.
  change (replicate m url ++ [url] = replicate (S m) url).
  by rewrite replicate_S_end.
Qed.

(** C7.  [fetch_website_content] makes at most [retry_count] requests.
    A request that fails is followed by one sleep of [retry_delay],
    always the same, unless it was the last one allowed.  When all of
    them fail the function returns [None], having made [retry_count]
    requests and [retry_count - 1] sleeps, the last event being the
    error record and not a sleep; [check_website_changes] then returns
    [False] with no file written and no notification sent. *)
Theorem fetch_retries_then_gives_up
    (site : Site) (config : Config) (force_update : bool) (w : World) :
  let url := site_url site in
  let n := Z.to_nat (retry_count config) in
  let fetched := fetch_website_content url config w in
  let fetch_events := drop (length (trace w)) (trace fetched.2) in
  (∀ k body rest,
      fetch_answers config w url k body rest →
      fetched.1 = Some body
      ∧ requests_of fetch_events = replicate (S k) url ∧ (S k ≤ n)%nat
      ∧ sleeps_of fetch_events = replicate k (retry_delay config))
  ∧ (fetch_fails config w url →
      let checked := check_website_changes site config force_update w in
      fetched.1 = None
      ∧ requests_of fetch_events = replicate n url
      ∧ sleeps_of fetch_events = replicate (n - 1) (retry_delay config)
      ∧ (n ≠ 0%nat → last fetch_events = Some (EvLog ERROR (FetchFailed url)))
      ∧ files fetched.2 = files w
      ∧ checked.1 = false
      ∧ files checked.2 = files w
      ∧ notifications (trace checked.2) = notifications (trace w)).
Proof.
  intros url n fetched fetch_events. subst fetched fetch_events. split.
  - intros k body rest Hfetch.
    rewrite (fetch_website_content_answers _ _ _ _ _ _ Hfetch).
    cbn [fst snd trace]. rewrite drop_app_length.
    rewrite requests_of_app, sleeps_of_app.
    rewrite requests_of_retry_events, sleeps_of_retry_events.
    repeat split.
    + change (replicate k url ++ [url] = replicate (S k) url).
      by rewrite replicate_S_end.
    + destruct Hfetch as [_ Hk]. subst n. lia.
    + simpl. by rewrite app_nil_r.
  - intros Hfail checked. subst checked.
    rewrite (fetch_website_content_fails _ _ _ Hfail).
    rewrite (check_skipped site config force_update w Hfail).
    cbn [fst snd trace files]. rewrite drop_app_length.
    repeat split.
    + apply requests_of_exhausted_events.
    + apply sleeps_of_exhausted_events.
    + subst n. destruct (Z.to_nat (retry_count config)) as [|m]; [done|].
      intros _. cbn [exhausted_events].
      change [EvGet url; EvLog ERROR (FetchFailed url)]
        with ([EvGet url] ++ [EvLog ERROR (FetchFailed url)]).
      rewrite (app_assoc _ [EvGet url]). apply last_snoc.
    + rewrite !notifications_app.
      rewrite (notifications_logs (exhausted_events _ _ _))
        by apply exhausted_events_quiet.
      by rewrite !app_nil_r.
Qed.

End Retries.

(** ** The store is written in place *)

Section InPlace.

Context {L : Libraries}.

(** C3, amended.  [save_content] writes the destination in place: it
    opens it for writing, which empties it, and the content then
    reaches it piece by piece; no other file, temporary or not, is
    written at any moment and nothing is replaced.  While the save runs
    the file therefore holds a beginning of the content, first of all
    nothing, and never what it held before.  For a content the codec can
    write, the save returns [True] and leaves the content in the file;
    a load after it gives the content with its line ends CR LF and CR
    read as LF, which is the content itself when it holds no carriage
    return. *)
Theorem save_content_writes_in_place (content : text) (p : path) (w : World) :
  py_encodable content = true →
  let saved := save_content content p w in
  let pieces := cut_text (io_write_sizes content) content in
  let seen := stages (write_steps p content) w in
  saved.1 = true
  ∧ files saved.2 = <[p := content]> (files w)
  ∧ (load_content p saved.2).1 = Some (py_universal_newlines content)
  ∧ (13%N ∉ content → (load_content p saved.2).1 = Some content)
  ∧ files <$> seen
    = (λ k, <[p := concat (take k pieces)]> (files w)) <$> seq 0 (S (length pieces))
  ∧ last seen = Some saved.2
  ∧ (∀ stage, stage ∈ seen →
       (∃ n, files stage !! p = Some (take n content))
       ∧ ∀ q, q ≠ p → files stage !! q = files w !! q).
Proof.
  intros _ saved pieces seen.
  assert (saved = (true, with_files (<[p := content]> (files w)) w)) as Hsaved
    by apply save_content_run.
  assert ((load_content p saved.2).1 = Some (py_universal_newlines content)) as Hload.
  { rewrite Hsaved, load_content_run. cbn [fst snd files with_files].
    by rewrite lookup_insert_eq. }
  assert (files <$> seen
          = (λ k, <[p := concat (take k pieces)]> (files w)) <$> seq 0 (S (length pieces)))
    as Hseen by apply write_stages.
  split; [by rewrite Hsaved|]. split; [by rewrite Hsaved|]. split; [exact Hload|].
  split; [intros Hcr; by rewrite Hload, py_universal_newlines_fixed|].
  split; [exact Hseen|]. split.
  - subst seen saved. unfold write_steps. rewrite stages_last.
    unfold save_content. rewrite bind_run. done.
  - intros stage Hstage.
    assert (files stage ∈ files <$> seen) as Hfiles by (by apply list_elem_of_fmap_2).
    rewrite Hseen in Hfiles. apply list_elem_of_fmap in Hfiles as (k & -> & _).
    split.
    + destruct (concat_take_prefix pieces k) as [n Hn]. exists n.
      rewrite lookup_insert_eq, Hn. subst pieces. by rewrite concat_cut_text.
    + intros q Hq. by rewrite lookup_insert_ne.
Qed.

End InPlace.

(** ** Line changes *)

Section LineChanges.

Context {L : Libraries} {laws : DifferLaws L}.

(** C2, amended.  [compute_diff(t, t)] is empty for every text [t].
    For two non-empty texts the result is non-empty exactly when their
    line splits differ; when either text is empty the result is empty,
    however the other one reads. *)
Theorem compute_diff_reports_line_changes (a b : text) :
  compute_diff (Some a) (Some a) = None
  ∧ (a ≠ [] → b ≠ [] →
     (compute_diff (Some a) (Some b) ≠ None ↔ py_splitlines a ≠ py_splitlines b))
  ∧ (a = [] ∨ b = [] → compute_diff (Some a) (Some b) = None).
Proof.
  split; [by apply compute_diff_same_lines|]. split.
  - intros Ha Hb. split.
    + intros Hsome Hlines. by apply Hsome, compute_diff_same_lines.
    + intros Hlines Hnone.
      destruct (compute_diff_other_lines a b Ha Hb Hlines) as [diff Hdiff].
      congruence.
  - intros [-> | ->]; [done|]. by destruct a.
Qed.

End LineChanges.

(** ** A change is stored before it is announced *)

Section StoredFirst.

Context {L : Libraries} {laws : DifferLaws L}.



End StoredFirst.

(** ** Every call is one of the cases *)

Section Totality.

Context {L : Libraries}.

Lemma script_outcome (script : list response) (n : nat) :
  Forall (λ r, r = RequestException) (take n script)
  ∨ ∃ k body rest,
      script = replicate k RequestException ++ ResponseText body :: rest ∧ (k < n)%nat.
Proof.
  revert n. induction script as [|r script IH]; intros n.
  - left. rewrite take_nil. constructor.
  - destruct n as [|n]; [left; constructor|].
    destruct r as [body|].
    + right. exists 0%nat, body, script. split; [done|lia].
    + destruct (IH n) as [Hfail | (k & body & rest & -> & Hk)].
      * left. simpl. by constructor.
      * right. exists (S k), body, rest. split; [done|lia].
Qed.

Lemma fetch_outcome config w url :
  fetch_fails config w url ∨ ∃ k body rest, fetch_answers config w url k body rest.
Proof.
  unfold fetch_fails, fetch_answers.
  destruct (script_outcome (default [] (network w !! url)) (Z.to_nat (retry_count config)))
    as [Hfail | (k & body & rest & Hscript & Hk)]; [by left|right].
  exists k, body, rest. split; [|lia].
  destruct (network w !! url) as [script|]; simpl in Hscript; [by subst|].
  by destruct k.
Qed.

Lemma check_cases site config force_update w : check_case site config force_update w.
Proof.
  destruct (fetch_outcome config w (site_url site))
    as [Hfail | (k & html & rest & Hfetch)]; [by apply CaseSkipped|].
  destruct html as [|c html]; [by eapply CaseEmptyPayload|].
  destruct (negb (py_truthy (files w !! content_file_of config site)) || force_update)
    eqn:Hbase; [by eapply CaseBaseline|].
  apply orb_false_iff in Hbase as [Hprev ->].
  apply negb_false_iff in Hprev.
  destruct (files w !! content_file_of config site) as [[|p previous]|] eqn:E; try done.
  destruct (compute_diff (Some (p :: previous)) (Some (extracted_content_of site (c :: html))))
    as [diff|] eqn:Hdiff.
  - by eapply CaseChanged.
  - by eapply CaseUnchanged.
Qed.

(** Whatever the case, the call first logs the check and only adds to
    the trace. *)
Lemma check_trace_grows site config force_update w :
  ∃ events,
    trace (check_website_changes site config force_update w).2
    = trace w ++ EvLog INFO (Checking (site_name site) (site_url site)) :: events.
Proof.
  destruct (check_cases site config force_update w)
    as [Hfail | k rest Hfetch | k html rest Hfetch Hhtml Hbase
        | k html rest previous Hfetch Hhtml -> Hprev Hne Hdiff
        | k html rest previous diff Hfetch Hhtml -> Hprev Hne Hdiff].
  - rewrite (check_skipped _ _ _ _ Hfail). by eexists.
  - rewrite (check_empty_payload _ _ _ _ _ _ Hfetch). by eexists.
  - rewrite (check_baseline _ _ _ _ _ _ _ Hfetch Hhtml Hbase). by eexists.
  - rewrite (check_unchanged _ _ _ _ _ _ _ Hfetch Hhtml Hprev Hne Hdiff). by eexists.
  - rewrite (check_changed _ _ _ _ _ _ _ _ Hfetch Hhtml Hprev Hne Hdiff). by eexists.
Qed.

End Totality.

(** ** The daemon's pass over one site *)

Section Scheduling.

Context {L : Libraries}.

Lemma get_site_data_path_run config site w :
  get_site_data_path config site w
  = (site_dir_of config site, with_dirs (site_dirs config site w) w).
Proof. reflexivity. Qed.

Lemma daemon_visit_run config now site w :
  daemon_visit config now site w =
    if negb (default true (site_active site)) then (tt, w)
    else
      let prepared := with_dirs (site_dirs config site w) w in
      if now - last_check_time_of (files w) (last_check_file_of config site)
         >=? effective_interval config site
      then (tt, (check_website_changes site config false prepared).2)
      else (tt, prepared).
Proof.
  unfold daemon_visit. destruct (negb (default true (site_active site))); [done|].
  rewrite bind_run, get_site_data_path_run. cbn [fst snd]. rewrite bind_run.
  cbn [fst snd files with_dirs]. unfold last_check_file_of.
  by destruct (_ >=? _).
Qed.

(** C6, amended.  In a pass of the daemon an inactive site is left
    alone whatever time has passed; an active site has its directories
    made and is checked exactly when [now - last_check_time >=
    interval].  The interval is the site's own [check_interval] when it
    is present and not 0, and the global one otherwise; the time of the
    last check is read from [last_check.json] and is 0 when there is no
    such file, so that a site never checked is due as soon as [now] has
    reached the interval. *)
Theorem daemon_visit_checks_a_site_when_due
    (config : Config) (now : Z) (site : Site) (w : World) :
  let last := last_check_time_of (files w) (last_check_file_of config site) in
  let interval := effective_interval config site in
  let visited := daemon_visit config now site w in
  let prepared := with_dirs (site_dirs config site w) w in
  (default true (site_active site) = false → visited = (tt, w))
  ∧ (default true (site_active site) = true → interval ≤ now - last →
       visited = (tt, (check_website_changes site config false prepared).2)
       ∧ ∃ events,
           trace visited.2
           = trace w ++ EvLog INFO (Checking (site_name site) (site_url site)) :: events)
  ∧ (default true (site_active site) = true → now - last < interval →
       visited = (tt, prepared))
  ∧ interval = match site_check_interval site with
               | Some override => if override =? 0 then check_interval config else override
               | None => check_interval config
               end
  ∧ (files w !! last_check_file_of config site = None → last = 0).
Proof.
  intros last interval visited prepared. subst visited.
  rewrite daemon_visit_run. fold last interval. cbv zeta. fold prepared.
  split; [|split; [|split; [|split]]].
  - by intros ->.
  - intros -> Hdue. cbn [negb].
    replace (now - last >=? interval) with true by (symmetry; apply Z.geb_le; lia).
    split; [done|]. cbn [fst snd].
    apply (check_trace_grows site config false prepared).
  - intros -> Hearly. cbn [negb].
    replace (now - last >=? interval) with false
      by (symmetry; rewrite Z.geb_leb; apply Z.leb_gt; lia).
    done.
  - subst interval. unfold effective_interval.
    by destruct (site_check_interval site) as [[| |]|].
  - intros Hnone. subst last. unfold last_check_time_of. by rewrite Hnone.
Qed.

(** A check that got a payload leaves its own time as the time of the
    last check. *)
Lemma check_records_its_time {laws : JsonLaws L} site config force_update w k html rest :
  fetch_answers config w (site_url site) k html rest →
  html ≠ [] →
  let checked := check_website_changes site config force_update w in
  last_check_time_of (files checked.2) (last_check_file_of config site) = clock checked.2.
Proof.
  intros Hfetch Hhtml checked. subst checked. unfold last_check_time_of.
  destruct (negb (py_truthy (files w !! content_file_of config site)) || force_update)
    eqn:Hbase.
  - rewrite (check_baseline _ _ _ _ _ _ _ Hfetch Hhtml Hbase). cbn [snd files clock].
    rewrite lookup_insert_eq. unfold check_record. by rewrite json_roundtrip.
  - apply orb_false_iff in Hbase as [Hprev ->]. apply negb_false_iff in Hprev.
    destruct (files w !! content_file_of config site) as [[|p previous]|] eqn:E; try done.
    destruct (compute_diff (Some (p :: previous)) (Some (extracted_content_of site html)))
      as [diff|] eqn:Hdiff.
    + rewrite (check_changed _ _ _ _ _ _ _ _ Hfetch Hhtml E ltac:(done) Hdiff).
      cbn [snd files clock]. rewrite !lookup_insert_ne by done.
      rewrite lookup_insert_eq. unfold check_record. by rewrite json_roundtrip.
    + rewrite (check_unchanged _ _ _ _ _ _ _ Hfetch Hhtml E ltac:(done) Hdiff).
      cbn [snd files clock]. rewrite lookup_insert_eq.
      unfold check_record. by rewrite json_roundtrip.
Qed.

(** After such a check the daemon leaves the site alone until its
    interval has passed. *)
Lemma daemon_waits_for_the_interval {laws : JsonLaws L}
    site config w k html rest now :
  default true (site_active site) = true →
  fetch_answers config w (site_url site) k html rest →
  html ≠ [] →
  let checked := check_website_changes site config false w in
  now - clock checked.2 < effective_interval config site →
  trace (daemon_visit config now site checked.2).2 = trace checked.2.
Proof.
  intros Hactive Hfetch Hhtml checked Hearly.
  rewrite daemon_visit_run, Hactive. cbn [negb]. cbv zeta.
  unfold checked in *. rewrite (check_records_its_time _ _ _ _ _ _ _ Hfetch Hhtml).
  replace (_ >=? _) with false
    by (symmetry; rewrite Z.geb_leb; apply Z.leb_gt; lia).
  done.
Qed.

(** [check_sites] without a site to reset is the loop over all sites. *)
Lemma check_sites_cycle config w :
  sites config ≠ [] →
  check_sites config None w
  = (Some (check_sites_loop config (sites config) false w).1,
     (check_sites_loop config (sites config) false w).2).
Proof. unfold check_sites. by destruct (sites config). Qed.

End Scheduling.

(** ** One site's failure and the other sites *)

Section Isolation.

Context {L : Libraries}.

Lemma files_agree_refl config site fs : files_agree config site fs fs.
Proof. by split. Qed.

Lemma files_agree_sym config site fs1 fs2 :
  files_agree config site fs1 fs2 → files_agree config site fs2 fs1.
Proof.
  intros [Hsame Hheld]. split.
  - intros p Hp Hs. symmetry. by apply Hsame.
  - intros p Hp. symmetry. by apply Hheld.
Qed.

Lemma files_agree_trans config site fs1 fs2 fs3 :
  files_agree config site fs1 fs2 → files_agree config site fs2 fs3 →
  files_agree config site fs1 fs3.
Proof.
  intros [Hsame Hheld] [Hsame' Hheld']. split.
  - intros p Hp Hs. rewrite Hsame by done. by apply Hsame'.
  - intros p Hp. rewrite Hheld by done. by apply Hheld'.
Qed.

(** The same file written on both sides, with the same content unless it
    carries a reading of the clock. *)
Lemma files_agree_insert config site p x y fs1 fs2 :
  x = y ∨ is_stamped p.2 →
  files_agree config site fs1 fs2 →
  files_agree config site (<[p := x]> fs1) (<[p := y]> fs2).
Proof.
  intros Hxy [Hsame Hheld]. split.
  - intros q Hq Hs. rewrite !lookup_insert. case_decide as Hpq; [|by apply Hsame].
    subst q. destruct Hxy as [->|Hstamped]; done.
  - intros q Hq. rewrite !lookup_insert. case_decide; [|by apply Hheld].
    split; by eexists.
Qed.

(** A file of [site] itself written on one side. *)
Lemma files_agree_insert_own config site p x fs1 fs2 :
  p.1 = site_dir_of config site →
  files_agree config site fs1 fs2 →
  files_agree config site fs1 (<[p := x]> fs2).
Proof.
  intros Hp [Hsame Hheld]. split.
  - intros q Hq Hs. rewrite lookup_insert_ne by (by intros ->). by apply Hsame.
  - intros q Hq. rewrite lookup_insert_ne by (by intros ->). by apply Hheld.
Qed.

Lemma scripts_agree_insert site url script n1 n2 :
  scripts_agree site n1 n2 →
  scripts_agree site (<[url := script]> n1) (<[url := script]> n2).
Proof.
  intros H url' Hne. rewrite !lookup_insert. case_decide; [done|]. by apply H.
Qed.

Lemma scripts_agree_insert_l site script n1 n2 :
  scripts_agree site n1 n2 →
  scripts_agree site (<[site_url site := script]> n1) n2.
Proof. intros H url' Hne. rewrite lookup_insert_ne by done. by apply H. Qed.

Lemma scripts_agree_consume site url n n1 n2 :
  scripts_agree site n1 n2 → url ≠ site_url site →
  scripts_agree site (consume url n n1) (consume url n n2).
Proof.
  intros H Hurl url' Hne. unfold consume. rewrite <- (H url Hurl).
  destruct (n1 !! url) as [script|]; [|by apply H].
  by apply (scripts_agree_insert site url (drop n script) n1 n2 H).
Qed.

Lemma scripts_agree_consume_l site n n1 n2 :
  scripts_agree site n1 n2 → scripts_agree site (consume (site_url site) n n1) n2.
Proof.
  intros H. unfold consume. destruct (n1 !! site_url site); [|done].
  by apply scripts_agree_insert_l.
Qed.

Lemma same_elsewhere_refl config site w : same_elsewhere config site w w.
Proof. split; [apply files_agree_refl|done]. Qed.

Lemma same_elsewhere_sym config site w1 w2 :
  same_elsewhere config site w1 w2 → same_elsewhere config site w2 w1.
Proof.
  intros (Hf & Hn & Hs & Hd). split; [by apply files_agree_sym|].
  split; [|done]. intros url Hne. symmetry. by apply Hn.
Qed.

Lemma same_elsewhere_trans config site w1 w2 w3 :
  same_elsewhere config site w1 w2 → same_elsewhere config site w2 w3 →
  same_elsewhere config site w1 w3.
Proof.
  intros (Hf & Hn & Hs & Hd) (Hf' & Hn' & Hs' & Hd').
  split; [by eapply files_agree_trans|]. split; [|split; congruence].
  intros url Hne. rewrite Hn by done. by apply Hn'.
Qed.

Lemma fetch_fails_elsewhere config site other w1 w2 :
  apart_from config site other → same_elsewhere config site w1 w2 →
  fetch_fails config w1 (site_url other) → fetch_fails config w2 (site_url other).
Proof.
  intros [_ Hurl] (_ & Hn & _) Hfail. unfold fetch_fails in *. by rewrite <- Hn.
Qed.

Lemma fetch_answers_elsewhere config site other w1 w2 k body rest :
  apart_from config site other → same_elsewhere config site w1 w2 →
  fetch_answers config w1 (site_url other) k body rest →
  fetch_answers config w2 (site_url other) k body rest.
Proof.
  intros [_ Hurl] (_ & Hn & _) [Hnet Hk]. split; [|done]. by rewrite <- Hn.
Qed.

Lemma content_elsewhere config site other w1 w2 :
  apart_from config site other → same_elsewhere config site w1 w2 →
  files w2 !! content_file_of config other = files w1 !! content_file_of config other.
Proof.
  intros [Hdir _] ([Hf _] & _). symmetry. apply Hf; [done|].
  unfold is_stamped. simpl. by intros [|].
Qed.

Lemma same_elsewhere_intro config site w1 w2 :
  files_agree config site (files w1) (files w2) →
  scripts_agree site (network w1) (network w2) →
  smtp_up w1 = smtp_up w2 → desktop_up w1 = desktop_up w2 →
  same_elsewhere config site w1 w2.
Proof. intros. by split. Qed.

Ltac agree_files :=
  repeat first
    [ assumption
    | apply files_agree_insert; [by left|]
    | apply files_agree_insert; [by (right; unfold is_stamped; simpl; auto)|] ].

(** A check of another site goes the same way in two worlds that are
    the same elsewhere, and leaves them so. *)
Lemma check_elsewhere config site other force_update w1 w2 :
  apart_from config site other → same_elsewhere config site w1 w2 →
  let c1 := check_website_changes other config force_update w1 in
  let c2 := check_website_changes other config force_update w2 in
  c1.1 = c2.1
  ∧ same_elsewhere config site c1.2 c2.2
  ∧ ∃ events, trace c1.2 = trace w1 ++ events ∧ trace c2.2 = trace w2 ++ events.
Proof.
  intros Hapart Hsame c1 c2. subst c1 c2.
  pose proof (content_elsewhere config site other w1 w2 Hapart Hsame) as Hcontent.
  pose proof Hsame as (Hf & Hn & Hs & Hd).
  pose proof Hapart as [_ Hurl].
  destruct (check_cases other config force_update w1)
    as [Hfail | k rest Hfetch | k html rest Hfetch Hhtml Hbase
        | k html rest previous Hfetch Hhtml -> Hprev Hne Hdiff
        | k html rest previous diff Hfetch Hhtml -> Hprev Hne Hdiff].
  - rewrite (check_skipped _ _ _ w1 Hfail).
    rewrite (check_skipped _ _ _ w2)
      by (by eapply fetch_fails_elsewhere).
    cbn [fst snd trace]. split; [done|]. split; [|by eexists].
    apply same_elsewhere_intro; cbn [files network smtp_up desktop_up]; try done.
    by apply scripts_agree_consume.
  - rewrite (check_empty_payload _ _ _ w1 _ _ Hfetch).
    rewrite (check_empty_payload _ _ _ w2 k rest)
      by (by eapply fetch_answers_elsewhere).
    cbn [fst snd trace]. split; [done|]. split; [|by eexists].
    apply same_elsewhere_intro; cbn [files network smtp_up desktop_up]; try done.
    by apply scripts_agree_insert.
  - rewrite (check_baseline _ _ _ w1 _ _ _ Hfetch Hhtml Hbase).
    rewrite (check_baseline _ _ _ w2 k html rest)
      by first [done | by eapply fetch_answers_elsewhere | by rewrite Hcontent].
    cbn [fst snd trace]. split; [done|]. split; [|by eexists].
    apply same_elsewhere_intro; cbn [files network smtp_up desktop_up]; try done.
    + agree_files.
    + by apply scripts_agree_insert.
  - rewrite (check_unchanged _ _ w1 _ _ _ _ Hfetch Hhtml Hprev Hne Hdiff).
    rewrite (check_unchanged _ _ w2 k html rest previous)
      by first [done | by eapply fetch_answers_elsewhere | by rewrite Hcontent].
    cbn [fst snd trace]. split; [done|]. split; [|by eexists].
    apply same_elsewhere_intro; cbn [files network smtp_up desktop_up]; try done.
    + agree_files.
    + by apply scripts_agree_insert.
  - rewrite (check_changed _ _ w1 _ _ _ _ _ Hfetch Hhtml Hprev Hne Hdiff).
    rewrite (check_changed _ _ w2 k html rest previous diff)
      by first [done | by eapply fetch_answers_elsewhere | by rewrite Hcontent].
    cbn [fst snd trace]. rewrite Hs, Hd. split; [done|]. split; [|by eexists].
    apply same_elsewhere_intro; cbn [files network smtp_up desktop_up]; try done.
    + agree_files.
    + by apply scripts_agree_insert.
Qed.

Ltac own_files :=
  repeat (apply files_agree_insert_own; [done|]); apply files_agree_refl.

(** A check of a site changes nothing elsewhere. *)
Lemma check_own config site force_update w :
  same_elsewhere config site w (check_website_changes site config force_update w).2.
Proof.
  apply same_elsewhere_sym.
  destruct (check_cases site config force_update w)
    as [Hfail | k rest Hfetch | k html rest Hfetch Hhtml Hbase
        | k html rest previous Hfetch Hhtml -> Hprev Hne Hdiff
        | k html rest previous diff Hfetch Hhtml -> Hprev Hne Hdiff];
    [ rewrite (check_skipped _ _ _ w Hfail)
    | rewrite (check_empty_payload _ _ _ w _ _ Hfetch)
    | rewrite (check_baseline _ _ _ w _ _ _ Hfetch Hhtml Hbase)
    | rewrite (check_unchanged _ _ w _ _ _ _ Hfetch Hhtml Hprev Hne Hdiff)
    | rewrite (check_changed _ _ w _ _ _ _ _ Hfetch Hhtml Hprev Hne Hdiff) ];
    apply same_elsewhere_intro; cbn [snd files network smtp_up desktop_up];
    first [ done
          | by apply scripts_agree_consume_l
          | by apply scripts_agree_insert_l
          | apply files_agree_sym; own_files ].
Qed.

Lemma check_sites_loop_active config site rest changes_detected w :
  default true (site_active site) = true →
  check_sites_loop config (site :: rest) changes_detected w =
    check_sites_loop config rest
      (if (check_website_changes site config false w).1 then true else changes_detected)
      (check_website_changes site config false w).2.
Proof. intros Hactive. cbn [check_sites_loop]. by rewrite Hactive. Qed.

Lemma check_sites_loop_inactive config site rest changes_detected w :
  default true (site_active site) = false →
  check_sites_loop config (site :: rest) changes_detected w =
    check_sites_loop config rest changes_detected
      (with_trace (trace w ++ [EvLog INFO (SkipDisabled (site_name site))]) w).
Proof. intros Hactive. cbn [check_sites_loop]. by rewrite Hactive. Qed.

(** The rest of a cycle goes the same way in two worlds that are the
    same elsewhere. *)
Lemma check_sites_loop_elsewhere config site rest :
  Forall (apart_from config site) rest →
  ∀ changes_detected w1 w2,
    same_elsewhere config site w1 w2 →
    let l1 := check_sites_loop config rest changes_detected w1 in
    let l2 := check_sites_loop config rest changes_detected w2 in
    l1.1 = l2.1
    ∧ same_elsewhere config site l1.2 l2.2
    ∧ ∃ events, trace l1.2 = trace w1 ++ events ∧ trace l2.2 = trace w2 ++ events.
Proof.
  induction 1 as [|other rest Hapart _ IH]; intros changes_detected w1 w2 Hsame l1 l2;
    subst l1 l2.
  - cbn [check_sites_loop]. split; [done|]. split; [done|].
    exists []. by rewrite !app_nil_r.
  - destruct (default true (site_active other)) eqn:Hactive.
    + rewrite !check_sites_loop_active by done.
      destruct (check_elsewhere config site other false w1 w2 Hapart Hsame)
        as (Hresult & Hsame' & events & Ht1 & Ht2).
      rewrite Hresult.
      destruct (IH (if (check_website_changes other config false w2).1
                    then true else changes_detected) _ _ Hsame')
        as (Hrest & Hsame'' & events' & Ht1' & Ht2').
      split; [done|]. split; [done|].
      exists (events ++ events'). rewrite Ht1', Ht2', Ht1, Ht2.
      by rewrite !app_assoc.
    + rewrite !check_sites_loop_inactive by done.
      destruct (IH changes_detected
                  (with_trace (trace w1 ++ [EvLog INFO (SkipDisabled (site_name other))]) w1)
                  (with_trace (trace w2 ++ [EvLog INFO (SkipDisabled (site_name other))]) w2))
        as (Hrest & Hsame'' & events' & Ht1' & Ht2'); [exact Hsame|].
      split; [done|]. split; [done|].
      exists ([EvLog INFO (SkipDisabled (site_name other))] ++ events').
      rewrite Ht1', Ht2'. cbn [trace with_trace]. by rewrite !app_assoc.
Qed.

(** C8.  In a cycle over the sites, a site whose fetch fails does not
    stop the loop: its check returns [False] with the store untouched
    and the loop goes on with the remaining sites.  For the remaining
    sites, whose directories and URLs are their own, the cycle then goes
    exactly as it would have gone had the first site answered: the same
    result, the same events (requests, log records, notifications), and
    the same files in their directories with the same contents, but for
    the readings of the clock in the check record and the HTML report,
    since the retries of the failed fetch take time. *)
Theorem failed_fetch_is_isolated
    (config : Config) (site : Site) (rest : list Site) (changes_detected : bool)
    (failing answering : World) :
  default true (site_active site) = true →
  fetch_fails config failing (site_url site) →
  same_elsewhere config site failing answering →
  Forall (apart_from config site) rest →
  let failed := check_website_changes site config false failing in
  let answered := check_website_changes site config false answering in
  let after_failure := check_sites_loop config rest changes_detected failed.2 in
  let after_answer := check_sites_loop config rest changes_detected answered.2 in
  check_sites_loop config (site :: rest) changes_detected failing = after_failure
  ∧ failed.1 = false
  ∧ files failed.2 = files failing
  ∧ after_failure.1 = after_answer.1
  ∧ same_elsewhere config site after_failure.2 after_answer.2
  ∧ ∃ events,
      trace after_failure.2 = trace failed.2 ++ events
      ∧ trace after_answer.2 = trace answered.2 ++ events.
Proof.
  intros Hactive Hfail Hsame Hrest failed answered after_failure after_answer.
  assert (failed.1 = false ∧ files failed.2 = files failing) as [Hresult Hfiles].
  { subst failed. by rewrite (check_skipped _ _ _ _ Hfail). }
  assert (same_elsewhere config site failed.2 answered.2) as Hsame'.
  { eapply same_elsewhere_trans; [apply same_elsewhere_sym, check_own|].
    eapply same_elsewhere_trans; [exact Hsame|apply check_own]. }
  split.
  - rewrite check_sites_loop_active by done. fold failed. by rewrite Hresult.
  - split; [done|]. split; [done|].
    by apply check_sites_loop_elsewhere.
Qed.

End Isolation.

(** ** The statements at work *)

Section Examples.

#[local] Existing Instance Demo.libraries.

Ltac computed H := vm_compute in H; vm_compute; exact H.



Lemma compute_diff_reports_line_changes_witness :
  compute_diff (Some (txt "Hello")) (Some (txt "Hello")) = None
  ∧ (txt "Hello" ≠ [] → txt "Hello World" ≠ [] →
     (compute_diff (Some (txt "Hello")) (Some (txt "Hello World")) ≠ None
      ↔ py_splitlines (txt "Hello") ≠ py_splitlines (txt "Hello World")))
  ∧ (txt "Hello" = [] ∨ txt "Hello World" = [] →
     compute_diff (Some (txt "Hello")) (Some (txt "Hello World")) = None).
Proof.
  exact (compute_diff_reports_line_changes (laws := demo_differ_laws)
           (txt "Hello") (txt "Hello World")).
Defined.

(** Two texts that differ and have no diff: one ends its line and the
    other does not; and an empty text against any other. *)
Lemma compute_diff_misses_some_differences :
  (txt "Hello" ≠ txt "Hello" ++ LF
   ∧ compute_diff (Some (txt "Hello")) (Some (txt "Hello" ++ LF)) = None)
  ∧ ([] ≠ txt "Hello"
     ∧ compute_diff (Some []) (Some (txt "Hello")) = None).
Proof. vm_compute. repeat split; discriminate. Qed.

(** [Hello World] is saved where there was nothing, through a buffer of
    eight code points: the file is made empty, holds [Hello Wo], and
    then the content, which a load returns. *)
Lemma save_content_writes_in_place_witness :
  let p : path := ("monitor_data/site"%string, "content.txt"%string) in
  let w := Demo.world "https://example.com" [] 1000 in
  let saved := save_content (txt "Hello World") p w in
  py_encodable (txt "Hello World") = true
  ∧ saved.1 = true
  ∧ (load_content p saved.2).1 = Some (txt "Hello World")
  ∧ (λ stage, files stage !! p) <$> stages (write_steps p (txt "Hello World")) w
    = [Some []; Some (txt "Hello Wo"); Some (txt "Hello World")].
Proof.
  intros p w saved.
  assert (py_encodable (txt "Hello World") = true) as Hcodec by (vm_compute; reflexivity).
  destruct (save_content_writes_in_place (txt "Hello World") p w Hcodec)
    as (Hresult & _ & _ & Hload & _).
  split; [exact Hcodec|]. split; [exact Hresult|]. split.
  - apply Hload. vm_compute. intros Hcr.
    repeat (apply elem_of_cons in Hcr as [Hcr|Hcr]; [discriminate Hcr|]).
    by apply elem_of_nil in Hcr.
  - vm_compute. reflexivity.
Defined.

(** While [Hello World] is saved over [old], a reader can find the file
    empty, and then holding [Hello Wo]: neither the record there was nor
    the record that is saved.  No other file exists at any stage. *)
Lemma save_content_shows_an_emptied_file :
  let p : path := ("monitor_data/site"%string, "content.txt"%string) in
  let w := with_files {[ p := txt "old" ]} (Demo.world "https://example.com" [] 1000) in
  let seen := stages (write_steps p (txt "Hello World")) w in
  files w !! p = Some (txt "old")
  ∧ (∃ stage, stage ∈ seen ∧ files stage !! p = Some [])
  ∧ (∃ stage, stage ∈ seen ∧ files stage !! p = Some (txt "Hello Wo"))
  ∧ Forall (λ stage, dom (files stage) = {[ p ]}) seen.
Proof.
  intros p w seen. split; [vm_compute; reflexivity|].
  assert (∃ opened partly saved, seen = [opened; partly; saved]
            ∧ files opened = <[p := []]> (files w)
            ∧ files partly = <[p := txt "Hello Wo"]> (files opened)
            ∧ files saved = <[p := txt "Hello World"]> (files partly))
    as (opened & partly & saved & -> & Hopened & Hpartly & Hsaved).
  { eexists _, _, _. split; [reflexivity|].
    split; [reflexivity|]. split.
    - rewrite (fs_write_held _ _ _ []) by apply lookup_insert_eq. reflexivity.
    - erewrite (fs_write_held _ _ _ (txt "Hello Wo")); [reflexivity|].
      rewrite (fs_write_held _ _ _ []) by apply lookup_insert_eq.
      apply lookup_insert_eq. }
  assert (dom (files w) = {[ p ]}) as Hdom by apply dom_singleton_L.
  split; [exists opened; split; [left|]; rewrite Hopened; apply lookup_insert_eq|].
  split; [exists partly; split; [right; left|]; rewrite Hpartly; apply lookup_insert_eq|].
  repeat constructor;
    rewrite ?Hsaved, ?Hpartly, ?Hopened, !dom_insert_L, Hdom; set_solver.
Qed.




Lemma unchanged_cycle_writes_payload_and_check_record_only_witness :
  let w := Demo.world_with_snapshot "https://example.com" (txt "Hello")
             [ResponseText Demo.hello] 1000 in
  let checked := check_website_changes Demo.example_site Demo.config false w in
  compute_diff (Some (txt "Hello")) (Some (extracted_content_of Demo.example_site Demo.hello))
  = None
  ∧ checked.1 = false
  ∧ files checked.2 !! content_file_of Demo.config Demo.example_site = Some (txt "Hello")
  ∧ files checked.2 !! diff_file_of Demo.config Demo.example_site = None
  ∧ files checked.2 !! html_diff_file_of Demo.config Demo.example_site = None
  ∧ notifications (trace checked.2) = [].
Proof.
  intros w checked.
  assert (fetch_answers Demo.config w "https://example.com" 0 Demo.hello []) as Hfetch
    by (split; vm_compute; reflexivity).
  assert (files w !! content_file_of Demo.config Demo.example_site = Some (txt "Hello"))
    as Hprev by (vm_compute; reflexivity).
  assert (compute_diff (Some (txt "Hello"))
            (Some (extracted_content_of Demo.example_site Demo.hello)) = None) as Hdiff
    by (vm_compute; reflexivity).
  destruct (unchanged_cycle_writes_payload_and_check_record_only
              Demo.example_site Demo.config w 0 Demo.hello [] (txt "Hello")
              Hfetch Hprev ltac:(discriminate) Hdiff)
    as (Hresult & _ & Hcontent & Hdifffile & Hreport & Hquiet).
  split; [exact Hdiff|].
  split; [computed Hresult|]. split; [computed Hcontent|].
  split; [computed Hdifffile|]. split; [computed Hreport|computed Hquiet].
Defined.

(** Every request of the example site fails: three requests, two
    sleeps of five seconds, and a skipped cycle. *)
Lemma fetch_retries_then_gives_up_witness :
  let w := Demo.world "https://example.com" [] 1000 in
  let fetched := fetch_website_content "https://example.com" Demo.config w in
  let checked := check_website_changes Demo.example_site Demo.config false w in
  fetch_fails Demo.config w "https://example.com"
  ∧ fetched.1 = None
  ∧ requests_of (trace fetched.2) = replicate 3 "https://example.com"%string
  ∧ sleeps_of (trace fetched.2) = [5; 5]%N
  ∧ last (trace fetched.2) = Some (EvLog ERROR (FetchFailed "https://example.com"))
  ∧ clock fetched.2 = 1010
  ∧ checked.1 = false
  ∧ files checked.2 !! content_file_of Demo.config Demo.example_site = None.
Proof.
  intros w fetched checked.
  assert (fetch_fails Demo.config w "https://example.com") as Hfail
    by (vm_compute; constructor).
  destruct (fetch_retries_then_gives_up Demo.example_site Demo.config false w)
    as [_ Hgives_up].
  destruct (Hgives_up Hfail)
    as (Hnone & Hrequests & Hsleeps & Hlast & _ & Hresult & Hfiles & _).
  specialize (Hlast ltac:(discriminate)).
  split; [exact Hfail|].
  split; [computed Hnone|]. split; [computed Hrequests|].
  split; [computed Hsleeps|]. split; [computed Hlast|].
  split; [vm_compute; reflexivity|]. split; [computed Hresult|].
  unfold checked. rewrite Hfiles. vm_compute. reflexivity.
Defined.

(** The site with a check interval of 0 of its own, last checked 100
    seconds ago under a global interval of an hour: the interval is
    present and has passed, yet the daemon does not check the site. *)
Lemma zero_interval_of_a_site_is_not_used :
  let config := Demo.config in
  let w := with_files
             {[ last_check_file_of config Demo.eager_site := check_record 900 ]}
             (Demo.world "https://example.com" [ResponseText Demo.hello] 1000) in
  site_check_interval Demo.eager_site = Some 0
  ∧ default true (site_active Demo.eager_site) = true
  ∧ last_check_time_of (files w) (last_check_file_of config Demo.eager_site) = 900
  ∧ 0 ≤ 1000 - 900
  ∧ trace (daemon_visit config 1000 Demo.eager_site w).2 = []
  ∧ files (daemon_visit config 1000 Demo.eager_site w).2
      !! html_file_of config Demo.eager_site = None.
Proof.
  intros config w.
  split; [reflexivity|]. split; [reflexivity|].
  split; [vm_compute; reflexivity|]. split; [lia|].
  split; vm_compute; reflexivity.
Qed.

(** The example site, with its interval of 60 seconds, was checked 100
    seconds ago: the daemon checks it. *)
Lemma daemon_visit_checks_a_site_when_due_witness :
  let w := with_files
             {[ last_check_file_of Demo.config Demo.example_site := check_record 900 ]}
             (Demo.world "https://example.com" [ResponseText Demo.hello] 1000) in
  let visited := daemon_visit Demo.config 1000 Demo.example_site w in
  effective_interval Demo.config Demo.example_site = 60
  ∧ last_check_time_of (files w) (last_check_file_of Demo.config Demo.example_site) = 900
  ∧ ∃ events,
      trace visited.2
      = trace w ++ EvLog INFO (Checking "Example" "https://example.com") :: events.
Proof.
  intros w visited.
  destruct (daemon_visit_checks_a_site_when_due Demo.config 1000 Demo.example_site w)
    as (_ & Hdue & _ & _ & _).
  split; [vm_compute; reflexivity|]. split; [vm_compute; reflexivity|].
  apply Hdue; [reflexivity|]. vm_compute. discriminate.
Defined.

(** Site A does not answer; site B has changed.  B is checked, its
    change is found, stored and announced, as when A answers. *)
Lemma failed_fetch_is_isolated_witness :
  let failing := Demo.world_ab [] in
  let answering := Demo.world_ab [ResponseText (txt "<p>a</p>")] in
  let failed := check_website_changes Demo.site_a Demo.config_ab false failing in
  let answered := check_website_changes Demo.site_a Demo.config_ab false answering in
  let after_failure := check_sites_loop Demo.config_ab [Demo.site_b] false failed.2 in
  let after_answer := check_sites_loop Demo.config_ab [Demo.site_b] false answered.2 in
  fetch_fails Demo.config_ab failing "https://a.example"
  ∧ check_sites_loop Demo.config_ab [Demo.site_a; Demo.site_b] false failing = after_failure
  ∧ failed.1 = false
  ∧ after_failure.1 = true
  ∧ after_answer.1 = true
  ∧ files after_failure.2 !! content_file_of Demo.config_ab Demo.site_b = Some (txt "b!")
  ∧ files after_answer.2 !! content_file_of Demo.config_ab Demo.site_b = Some (txt "b!").
Proof.
  intros failing answering failed answered after_failure after_answer.
  assert (fetch_fails Demo.config_ab failing "https://a.example") as Hfail
    by (vm_compute; constructor).
  assert (same_elsewhere Demo.config_ab Demo.site_a failing answering) as Hsame.
  { split; [apply files_agree_refl|]. split; [|done].
    intros url Hurl. unfold failing, answering, Demo.world_ab. cbn [network].
    by rewrite !lookup_insert_ne. }
  assert (Forall (apart_from Demo.config_ab Demo.site_a) [Demo.site_b]) as Hrest.
  { constructor; [|constructor]. split; discriminate. }
  destruct (failed_fetch_is_isolated Demo.config_ab Demo.site_a [Demo.site_b] false
              failing answering eq_refl Hfail Hsame Hrest)
    as (Hloop & Hresult & _ & Hsame_result & _ & _).
  split; [exact Hfail|]. split; [exact Hloop|]. split; [exact Hresult|].
  fold failed answered after_failure after_answer in Hsame_result.
  rewrite <- Hsame_result. vm_compute. repeat split; reflexivity.
Defined.

(** The scenario of three cycles on the example site: the first makes
    the baseline [Hello] and announces nothing; the second finds
    [Hello World], stores it and announces it once; the third finds
    nothing new. *)
Example three_cycles :
  let w := Demo.world "https://example.com"
             [ResponseText Demo.hello; ResponseText Demo.hello_world;
              ResponseText Demo.hello_world] 1000 in
  let first := check_website_changes Demo.example_site Demo.config false w in
  let second := check_website_changes Demo.example_site Demo.config false first.2 in
  let third := check_website_changes Demo.example_site Demo.config false second.2 in
  (first.1 = false
   ∧ files first.2 !! content_file_of Demo.config Demo.example_site = Some (txt "Hello")
   ∧ notifications (trace first.2) = [])
  ∧ (second.1 = true
     ∧ files second.2 !! content_file_of Demo.config Demo.example_site
       = Some (txt "Hello World")
     ∧ files second.2 !! diff_file_of Demo.config Demo.example_site
       = Some (txt "- Hello" ++ LF ++ txt "+ Hello World")
     ∧ notifications (trace second.2) = [EvDesktop "Example" "https://example.com"])
  ∧ (third.1 = false
     ∧ files third.2 !! content_file_of Demo.config Demo.example_site
       = Some (txt "Hello World")
     ∧ notifications (trace third.2) = [EvDesktop "Example" "https://example.com"]).
Proof.
  intros w first second third.
  repeat match goal with |- _ ∧ _ => split end; vm_compute; reflexivity.
Qed.

End Examples.

(** * Further properties *)

(** ** What normalisation keeps *)

Section Visible.

Lemma visible_app t u : visible (t ++ u) = visible t ++ visible u.
Proof. apply filter_app. Qed.

Lemma visible_space c t : py_isspace c = true → visible (c :: t) = visible t.
Proof. intros Hc. unfold visible. rewrite filter_cons_False; [done|]. by rewrite Hc. Qed.

Lemma visible_other c t : py_isspace c = false → visible (c :: t) = c :: visible t.
Proof. intros Hc. unfold visible. by rewrite filter_cons_True. Qed.

Lemma visible_collapse_ws b t : visible (collapse_ws b t) = visible t.
Proof.
  revert b. induction t as [|c r IH]; intros b; simpl; [done|].
  destruct (py_isspace c) eqn:Hc.
  - rewrite (visible_space c) by done. destruct b; [apply IH|].
    rewrite (visible_space SPACE) by done. apply IH.
  - rewrite !visible_other by done. f_equal. apply IH.
Qed.

Lemma visible_lstrip t : visible (py_lstrip t) = visible t.
Proof.
  induction t as [|c r IH]; simpl; [done|].
  destruct (py_isspace c) eqn:Hc; [|done]. by rewrite (visible_space c).
Qed.

Lemma visible_reverse t : visible (reverse t) = reverse (visible t).
Proof.
  induction t as [|c r IH]; [done|].
  rewrite reverse_cons, visible_app, IH.
  destruct (py_isspace c) eqn:Hc.
  - rewrite !(visible_space c) by done. simpl. by rewrite app_nil_r.
  - rewrite !(visible_other c) by done. simpl. by rewrite reverse_cons.
Qed.

Lemma visible_rstrip t : visible (py_rstrip t) = visible t.
Proof.
  unfold py_rstrip. by rewrite visible_reverse, visible_lstrip, visible_reverse,
    reverse_involutive.
Qed.

Lemma normalize_whitespace_starts_clean t : starts_clean (normalize_whitespace t).
Proof. apply py_rstrip_starts_clean, py_lstrip_starts_clean. Qed.

(** X1.  The whitespace normalisation of [extract_content] touches
    whitespace only: the code points that are not whitespace come out
    all, and in their order.  So the normalised text is empty exactly
    when the text held nothing but whitespace. *)
Theorem normalize_whitespace_keeps_visible_text (t : text) :
  visible (normalize_whitespace t) = visible t
  ∧ (normalize_whitespace t = [] ↔ visible t = []).
Proof.
  assert (visible (normalize_whitespace t) = visible t) as Hkept.
  { unfold normalize_whitespace, py_strip, re_sub_whitespace.
    by rewrite visible_rstrip, visible_lstrip, visible_collapse_ws. }
  split; [exact Hkept|]. split.
  - intros Hnil. by rewrite <- Hkept, Hnil.
  - intros Hnone. rewrite <- Hkept in Hnone.
    pose proof (normalize_whitespace_starts_clean t) as Hclean.
    destruct (normalize_whitespace t) as [|c r]; [done|].
    simpl in Hclean. by rewrite visible_other in Hnone.
Qed.

End Visible.

(** ** Normalised content is one line *)

Section OneLine.

Context {L : Libraries}.

Lemma linebreak_is_space c : py_islinebreak c = true → py_isspace c = true.
Proof.
  unfold py_islinebreak, py_isspace.
  rewrite !orb_true_iff, !andb_true_iff, !N.leb_le, !N.eqb_eq. lia.
Qed.

Lemma single_spaced_no_linebreak b t :
  single_spaced b t → Forall (λ c, py_islinebreak c = false) t.
Proof.
  revert b. induction t as [|c r IH]; intros b; simpl; [constructor|].
  destruct (py_isspace c) eqn:Hc.
  - intros (-> & _ & Hr). constructor; [done|by eapply IH].
  - intros Hr. constructor; [|by eapply IH].
    destruct (py_islinebreak c) eqn:Hb; [|done].
    apply linebreak_is_space in Hb. congruence.
Qed.

Lemma splitlines_from_one_line cur t :
  Forall (λ c, py_islinebreak c = false) t →
  splitlines_from cur t = match cur ++ t with [] => [] | _ :: _ => [cur ++ t] end.
Proof.
  intros Ht. revert cur. induction Ht as [|c r Hc _ IH]; intros cur.
  - simpl. rewrite app_nil_r. by destruct cur.
  - simpl. rewrite Hc.
    assert ((c =? 13)%N = false) as ->.
    { apply N.eqb_neq. intros ->. done. }
    rewrite IH, <- app_assoc. done.
Qed.

Lemma normalised_is_one_line t :
  py_splitlines (normalize_whitespace t)
  = match normalize_whitespace t with [] => [] | _ :: _ => [normalize_whitespace t] end.
Proof.
  unfold py_splitlines. rewrite splitlines_from_one_line; [done|].
  eapply single_spaced_no_linebreak, normalize_whitespace_single_spaced.
Qed.

(** X2.  The text [extract_content] normalises has no line boundary
    left, so [splitlines] gives it back as its single line; and for two
    such texts, neither of them empty, [compute_diff] finds a change
    exactly when they are different texts. *)
Theorem normalised_texts_differ_iff_diff {laws : DifferLaws L} (x y : text) :
  let a := normalize_whitespace x in
  let b := normalize_whitespace y in
  a ≠ [] → b ≠ [] →
  py_splitlines a = [a]
  ∧ (is_Some (compute_diff (Some a) (Some b)) ↔ a ≠ b).
Proof.
  intros a b Ha Hb.
  assert (py_splitlines a = [a]) as Hla.
  { subst a. rewrite normalised_is_one_line. by destruct (normalize_whitespace x). }
  assert (py_splitlines b = [b]) as Hlb.
  { subst b. rewrite normalised_is_one_line. by destruct (normalize_whitespace y). }
  split; [exact Hla|]. split.
  - intros [diff Hdiff] Hab. rewrite <- Hab in Hdiff.
    by rewrite compute_diff_same_lines in Hdiff.
  - intros Hab. apply compute_diff_other_lines; [done|done|].
    rewrite Hla, Hlb. congruence.
Qed.

End OneLine.

(** ** The shape of a diff *)

Section DiffShape.

Context {L : Libraries}.

(** X3.  What [compute_diff] returns, when it is not [None], is a
    non-empty text: the change lines of the delta, of which there is at
    least one, joined by line feeds, each opening with the code of an
    added or of a removed line.  Both texts compared were non-empty. *)
Theorem compute_diff_joins_the_change_lines (old_content new_content : option text)
    (diff : text) :
  compute_diff old_content new_content = Some diff →
  let changes := changes_of (differ_compare (py_splitlines (default [] old_content))
                                            (py_splitlines (default [] new_content))) in
  diff ≠ []
  ∧ diff = py_join LF changes
  ∧ changes ≠ []
  ∧ Forall is_change_line changes
  ∧ py_truthy old_content = true
  ∧ py_truthy new_content = true.
Proof.
  intros Hdiff changes.
  pose proof (compute_diff_truthy _ _ _ Hdiff) as Htruthy.
  split; [by destruct diff|].
  rewrite compute_diff_unfold in Hdiff. fold changes in Hdiff.
  destruct (py_truthy old_content), (py_truthy new_content); try done.
  simpl in Hdiff. destruct changes as [|line rest] eqn:E; [done|].
  injection Hdiff as <-. repeat split; try done.
  rewrite <- E. subst changes. apply Forall_forall. intros line' Hin.
  apply list_elem_of_filter in Hin as [Hline _].
  apply orb_True in Hline as [H|H]; apply Is_true_true in H; [by left|by right].
Qed.

(** X4.  Whether [compute_diff] finds a change does not depend on the
    order of the two texts. *)
Theorem compute_diff_none_is_symmetric {laws : DifferLaws L} (a b : text) :
  compute_diff (Some a) (Some b) = None ↔ compute_diff (Some b) (Some a) = None.
Proof.
  assert (∀ a b, compute_diff (Some a) (Some b) = None →
                 compute_diff (Some b) (Some a) = None) as Hhalf.
  { clear a b. intros a b Hnone.
    destruct a as [|c a]; [by destruct b|]. destruct b as [|c' b]; [done|].
    destruct (decide (py_splitlines (c :: a) = py_splitlines (c' :: b))) as [Heq|Hne].
    - by apply compute_diff_same_lines.
    - destruct (compute_diff_other_lines (c :: a) (c' :: b)) as [diff Hdiff]; try done.
      congruence. }
  split; apply Hhalf.
Qed.

End DiffShape.

(** ** Looking a site up *)

Section Lookup.

Context {L : Libraries}.

(** X5.  [find_site_by_name_or_url] returns the first site of the list
    whose name or URL is the key when both are put in lower case, and
    [None] when there is no such site. *)
Theorem find_site_returns_the_first_match (all : list Site) (name_or_url : string) :
  match find_site_by_name_or_url all name_or_url with
  | Some site =>
      ∃ before after,
        all = before ++ site :: after
        ∧ site_matches name_or_url site
        ∧ Forall (λ other, ¬ site_matches name_or_url other) before
  | None => Forall (λ other, ¬ site_matches name_or_url other) all
  end.
Proof.
  induction all as [|site rest IH]; simpl; [constructor|].
  destruct (bool_decide (str_lower (site_name site) = str_lower name_or_url)
            || bool_decide (str_lower (site_url site) = str_lower name_or_url)) eqn:Hm.
  - exists [], rest. split; [done|]. split; [|constructor].
    apply orb_true_iff in Hm as [Hm|Hm]; apply bool_decide_eq_true in Hm; [by left|by right].
  - apply orb_false_iff in Hm as [Hn Hu].
    apply bool_decide_eq_false in Hn, Hu.
    assert (¬ site_matches name_or_url site) as Hno by (by intros [|]).
    destruct (find_site_by_name_or_url rest name_or_url) as [found|].
    + destruct IH as (before & after & -> & Hfound & Hbefore).
      exists (site :: before), after. split; [done|]. split; [done|]. by constructor.
    + by constructor.
Qed.

End Lookup.

(** ** The notifier *)

Ltac absent := repeat (apply not_elem_of_cons; split; [discriminate|]); apply not_elem_of_nil.

Section Notifier.

Context {L : Libraries}.

Lemma email_missing_field_none e :
  email_missing_field e = None ↔
    smtp_server e ≠ ""%string ∧ smtp_port e ≠ 0 ∧ email_username e ≠ ""%string
    ∧ email_password e ≠ ""%string ∧ from_addr e ≠ ""%string.
Proof.
  unfold email_missing_field.
  case_bool_decide as H1; [split; [done|by intros (? & _)]|].
  destruct (Z.eqb_spec (smtp_port e) 0) as [H2|H2]; [split; [done|by intros (_ & ? & _)]|].
  case_bool_decide as H3; [split; [done|by intros (_ & _ & ? & _)]|].
  case_bool_decide as H4; [split; [done|by intros (_ & _ & _ & ? & _)]|].
  case_bool_decide as H5; [split; [done|by intros (_ & _ & _ & _ & ?)]|].
  done.
Qed.

Lemma email_configured_fields e :
  email_configured e
  ↔ email_enabled e = true ∧ email_missing_field e = None ∧ to_addr e ≠ [].
Proof. unfold email_configured. rewrite email_missing_field_none. tauto. Qed.

Lemma notifications_log level msg t : notifications (EvLog level msg :: t) = notifications t.
Proof. reflexivity. Qed.

Lemma notifications_email name url summary t :
  notifications (EvEmail name url summary :: t) = EvEmail name url summary :: notifications t.
Proof. reflexivity. Qed.

Lemma notifications_desktop name url t :
  notifications (EvDesktop name url :: t) = EvDesktop name url :: notifications t.
Proof. reflexivity. Qed.

Lemma notifications_nil : notifications [] = [].
Proof. reflexivity. Qed.

(** X6.  [send_email_notification] goes to the SMTP server only when
    e-mail is enabled, the five required settings are all non-empty
    (the port not 0) and there is a recipient; the message is then handed
    over unless a call raises before the server has taken it, and it
    quotes at most the first 500 code points of the diff.  [True] is
    returned exactly when, on top of that, the whole exchange went
    through: a message the server took before [quit] raised has left,
    and the answer is [False].  Every call logs one record, after the
    message if there is one, and touches no file. *)
Theorem email_goes_out_only_when_fully_configured
    (site : Site) (diff : text) (config : Config) (w : World) :
  let e := notification_email config in
  let sent := send_email_notification site diff config w in
  let events := drop (length (trace w)) (trace sent.2) in
  let message := EvEmail (site_name site) (site_url site) (take 500 diff) in
  trace sent.2 = trace w ++ events
  ∧ (sent.1 = true ↔ email_configured e ∧ smtp_up w = SmtpDelivered)
  ∧ (notifications events ≠ [] ↔ email_configured e ∧ smtp_up w ≠ SmtpRefused)
  ∧ (sent.1 = true → events = [message; EvLog INFO (EmailSent (to_addr e))])
  ∧ (sent.1 = false →
       (∃ level msg, events = [EvLog level msg])
       ∨ (smtp_up w = SmtpSentThenFailed
          ∧ events = [message; EvLog ERROR EmailSendFailed]))
  ∧ (length (take 500 diff) ≤ 500)%nat
  ∧ files sent.2 = files w ∧ network sent.2 = network w ∧ clock sent.2 = clock w.
Proof.
  intros e sent events message. subst sent events message.
  rewrite (email_configured_fields e). subst e.
  assert (length (take 500 diff) ≤ 500)%nat as Hshort by (rewrite length_take; lia).
  unfold send_email_notification.
  destruct (email_enabled (notification_email config)),
    (email_missing_field (notification_email config)),
    (to_addr (notification_email config)),
    (smtp_up w) eqn:Es;
    repeat first [rewrite bind_run | rewrite Es | progress simpl];
    rewrite <- ?app_assoc; simpl; rewrite drop_app_length;
    rewrite ?notifications_log, ?notifications_email, ?notifications_nil;
    (split; [done|]);
    (split; [intuition congruence|]);
    (split; [intuition congruence|]);
    (split; [intuition congruence|]);
    (split; [first [ intros Hsent; discriminate Hsent
                   | intros _; left; by eexists _, _
                   | intros _; by right ]|]);
    (split; [exact Hshort|done]).
Qed.

Lemma with_trace_same w : with_trace (trace w) w = w.
Proof. by destruct w. Qed.

(** The mail step of [send_notification]. *)
Lemma email_step site diff config w :
  let e := notification_email config in
  let message := EvEmail (site_name site) (site_url site) (take 500 diff) in
  let by_email :=
    (if email_enabled e then send_email_notification site diff config else mret false) w in
  ∃ events,
    by_email.2 = with_trace (trace w ++ events) w
    ∧ (by_email.1 = true ↔ email_configured e ∧ smtp_up w = SmtpDelivered)
    ∧ (message ∈ events ↔ email_configured e ∧ smtp_up w ≠ SmtpRefused)
    ∧ notifications events `sublist_of` [message]
    ∧ (∀ name url, EvDesktop name url ∉ events).
Proof.
  intros e message by_email. subst by_email message.
  pose proof (email_configured_fields e) as Hfields. subst e.
  unfold send_email_notification.
  destruct (email_enabled (notification_email config)),
    (email_missing_field (notification_email config)),
    (to_addr (notification_email config)),
    (smtp_up w) eqn:Es;
    repeat first [rewrite bind_run | rewrite Es | progress simpl];
    rewrite <- ?app_assoc; simpl;
    (eexists; split;
       [first [ reflexivity
              | symmetry; etrans; [|apply with_trace_same]; f_equal; apply app_nil_r ]|]);
    rewrite ?notifications_log, ?notifications_email, ?notifications_nil;
    rewrite !Hfields, ?elem_of_cons, ?elem_of_nil;
    (split; [intuition congruence|]);
    (split; [intuition congruence|]);
    (split; [repeat first [apply sublist_skip | apply sublist_cons | apply sublist_nil]|]);
    intros name url; absent.
Qed.

(** The desktop step of [send_notification]. *)
Lemma desktop_step site diff config w :
  let shown := EvDesktop (site_name site) (site_url site) in
  let to_desktop :=
    (if notification_desktop_enabled config
     then send_desktop_notification site diff else mret false) w in
  ∃ events,
    to_desktop.2 = with_trace (trace w ++ events) w
    ∧ (to_desktop.1 = true ↔
         notification_desktop_enabled config = true
         ∧ (desktop_up w = DesktopShown ∨ desktop_up w = DesktopCommandFailed))
    ∧ (shown ∈ events ↔
         notification_desktop_enabled config = true ∧ desktop_up w = DesktopShown)
    ∧ notifications events `sublist_of` [shown]
    ∧ (∀ name url summary, EvEmail name url summary ∉ events).
Proof.
  intros shown to_desktop. subst to_desktop shown.
  unfold send_desktop_notification.
  destruct (notification_desktop_enabled config), (desktop_up w) eqn:Ed;
    repeat first [rewrite bind_run | rewrite Ed | progress simpl];
    (eexists; split;
       [first [ reflexivity
              | symmetry; etrans; [|apply with_trace_same]; f_equal; apply app_nil_r ]|]);
    rewrite ?notifications_log, ?notifications_desktop, ?notifications_nil;
    rewrite ?elem_of_cons, ?elem_of_nil;
    (split; [intuition congruence|]);
    (split; [intuition congruence|]);
    (split; [repeat first [apply sublist_skip | apply sublist_cons | apply sublist_nil]|]);
    intros name url summary; absent.
Qed.

(** X7.  [send_notification] tries the channels that are enabled and
    no other, the mail first, and returns [True] exactly when one of
    them answered [True]: the mail when its settings are complete and the
    whole SMTP exchange went through, the desktop when the notification
    was shown or was handed to a command whose failure is not looked at.
    A message leaves by mail exactly when the settings are complete and
    the server took it, and a notification is shown exactly when the
    desktop is enabled and shows it; so [False] tells that nothing was
    shown, and [True] with the desktop disabled that a message has left.
    At most one notification goes out by each channel, and no file, no
    script of the network and no clock is touched. *)
Theorem send_notification_tries_the_enabled_channels
    (site : Site) (diff : text) (config : Config) (w : World) :
  let e := notification_email config in
  let sent := send_notification site diff config w in
  let events := drop (length (trace w)) (trace sent.2) in
  let message := EvEmail (site_name site) (site_url site) (take 500 diff) in
  let shown := EvDesktop (site_name site) (site_url site) in
  trace sent.2 = trace w ++ events
  ∧ (sent.1 = true ↔
       (email_configured e ∧ smtp_up w = SmtpDelivered)
       ∨ (notification_desktop_enabled config = true
          ∧ (desktop_up w = DesktopShown ∨ desktop_up w = DesktopCommandFailed)))
  ∧ (message ∈ events ↔ email_configured e ∧ smtp_up w ≠ SmtpRefused)
  ∧ (shown ∈ events ↔
       notification_desktop_enabled config = true ∧ desktop_up w = DesktopShown)
  ∧ notifications events `sublist_of` [message; shown]
  ∧ (sent.1 = false → shown ∉ events)
  ∧ (sent.1 = true → notification_desktop_enabled config = false → message ∈ events)
  ∧ files sent.2 = files w ∧ network sent.2 = network w ∧ clock sent.2 = clock w.
Proof.
  intros e sent events message shown.
  destruct (email_step site diff config w) as (mailed & Hw1 & Hr1 & Hm1 & Hn1 & Hd1).
  set (by_email := (if email_enabled (notification_email config)
                    then send_email_notification site diff config else mret false) w)
    in Hw1, Hr1.
  destruct (desktop_step site diff config by_email.2) as (popped & Hw2 & Hr2 & Hs2 & Hn2 & He2).
  set (to_desktop := (if notification_desktop_enabled config
                      then send_desktop_notification site diff else mret false) by_email.2)
    in Hw2, Hr2.
  assert (sent = (by_email.1 || to_desktop.1, to_desktop.2)) as Hsent by reflexivity.
  rewrite Hw1 in Hw2, Hr2, Hs2. cbn [desktop_up trace with_trace] in Hw2, Hr2, Hs2.
  assert (events = mailed ++ popped) as Hevents.
  { subst events. rewrite Hsent. cbn [snd]. rewrite Hw2. cbn [trace with_trace].
    by rewrite <- app_assoc, drop_app_length. }
  fold e message in Hr1, Hm1. fold shown in Hs2.
  rewrite Hevents, Hsent. cbn [fst snd]. rewrite Hw2.
  cbn [trace files network clock with_trace].
  split; [by rewrite app_assoc|].
  split; [rewrite orb_true_iff, Hr1, Hr2; tauto|].
  split.
  { pose proof (He2 (site_name site) (site_url site) (take 500 diff)) as Hnone.
    fold message in Hnone. rewrite elem_of_app, Hm1.
    split; [intros [H|H]; [exact H|by destruct Hnone]|by left]. }
  split.
  { pose proof (Hd1 (site_name site) (site_url site)) as Hnone.
    fold shown in Hnone. rewrite elem_of_app, Hs2.
    split; [intros [H|H]; [by destruct Hnone|exact H]|by right]. }
  split; [rewrite notifications_app; by apply (sublist_app _ [message] _ [shown])|].
  split.
  { intros [_ Hr]%orb_false_iff Hshown. apply elem_of_app in Hshown as [H|H].
    - by apply Hd1 in H.
    - apply Hs2 in H as [Hon Hup]. assert (to_desktop.1 = true) as Htrue by (apply Hr2; auto).
      congruence. }
  split; [|done].
  intros [Hr|Hr]%orb_true_iff Hoff.
  - apply elem_of_app. left. apply Hm1. apply Hr1 in Hr as [Hc ->]. done.
  - apply Hr2 in Hr as [Hon _]. congruence.
Qed.

End Notifier.

(** ** The extractor *)

Section Extractor.

Context {L : Libraries}.

Lemma apply_ignore_patterns_app before after content :
  apply_ignore_patterns (before ++ after) content =
    let r := apply_ignore_patterns before content in
    let r' := apply_ignore_patterns after r.1 in
    (r'.1, r.2 ++ r'.2).
Proof.
  revert content. induction before as [|p ps IH]; intros content; simpl.
  - by destruct (apply_ignore_patterns after content).
  - destruct (re_sub_delete p content) as [content'|]; simpl; [apply IH|].
    by rewrite IH.
Qed.

Lemma apply_ignore_patterns_logs patterns content :
  Forall (λ e, ∃ pattern, e = EvLog ERROR (InvalidPattern pattern))
         (apply_ignore_patterns patterns content).2.
Proof.
  revert content. induction patterns as [|p ps IH]; intros content; simpl; [constructor|].
  destruct (re_sub_delete p content); simpl; [apply IH|].
  constructor; [by eexists|apply IH].
Qed.

Lemma select_content_logs html selector content logged :
  select_content html selector = Some (content, logged) →
  EvLog ERROR ParseFailed ∉ logged.
Proof.
  unfold select_content.
  destruct (bs_parse html) as [parsed|]; simpl; [|done].
  case_bool_decide.
  - intros [= <- <-]. absent.
  - destruct (soup_select parsed selector) as [[|element elements]|]; simpl; [| |done].
    + intros [= <- <-]. absent.
    + intros [= <- <-]. absent.
Qed.

(** X8.  A pattern of [ignore_patterns] that does not compile is logged
    and skipped: the content extracted is the content extracted without
    that pattern, the patterns before and after it being applied as they
    stand. *)
Theorem invalid_pattern_is_skipped
    (html : text) (selector : string) (before after : list string) (pattern : string) :
  (∀ content, re_sub_delete pattern content = ReError) →
  (extract_content html selector (before ++ pattern :: after)).1
  = (extract_content html selector (before ++ after)).1
  ∧ (is_Some (select_content html selector) →
       EvLog ERROR (InvalidPattern pattern)
       ∈ (extract_content html selector (before ++ pattern :: after)).2).
Proof.
  intros Hinvalid. unfold extract_content.
  destruct (select_content html selector) as [[content logged]|]; [|split; [done|]].
  2:{ intros [? [=]]. }
  rewrite !apply_ignore_patterns_app. cbn zeta. cbn [apply_ignore_patterns].
  rewrite Hinvalid. cbn [fst snd].
  set (r := apply_ignore_patterns before content).
  set (r' := apply_ignore_patterns after r.1).
  split.
  - by destruct (bs_parse r'.1 ≫= soup_visible_text).
  - intros _. destruct (bs_parse r'.1 ≫= soup_visible_text); cbn [snd];
      rewrite ?elem_of_app, ?elem_of_cons; auto 10.
Qed.

(** X9.  [extract_content] returns either a normalised text, one that
    the whitespace normalisation leaves as it is, or, when parsing or
    selecting raised, the markup it was given, unchanged; the error
    record of the outer handler is logged in the second case and only
    then. *)
Theorem extract_content_is_normalised_or_raw
    (html : text) (selector : string) (ignore_patterns : list string) :
  let extraction := extract_content html selector ignore_patterns in
  (EvLog ERROR ParseFailed ∈ extraction.2 ∧ extraction.1 = html)
  ∨ ((EvLog ERROR ParseFailed ∉ extraction.2)
     ∧ normalize_whitespace extraction.1 = extraction.1
     ∧ py_splitlines extraction.1
       = match extraction.1 with [] => [] | _ :: _ => [extraction.1] end).
Proof.
  intros extraction. subst extraction. unfold extract_content.
  destruct (select_content html selector) as [[content logged]|] eqn:Hsel.
  2:{ left. split; [by left|done]. }
  pose proof (select_content_logs _ _ _ _ Hsel) as Hlogged.
  pose proof (apply_ignore_patterns_logs ignore_patterns content) as Hpatterns.
  cbn zeta.
  destruct (bs_parse (apply_ignore_patterns ignore_patterns content).1 ≫= soup_visible_text)
    as [clean_content|]; cbn [fst snd].
  - right. split; [|split].
    + rewrite not_elem_of_app. split; [done|]. intros Hin.
      rewrite Forall_forall in Hpatterns. by destruct (Hpatterns _ Hin).
    + apply normalize_whitespace_idempotent.
    + apply normalised_is_one_line.
  - left. split; [|done]. rewrite !elem_of_app, elem_of_cons. auto.
Qed.

End Extractor.

(** ** What a check touches *)

Section Frame.

Context {L : Libraries}.

Lemma retries_take_time (now : Z) (k : nat) (delay : N) :
  now ≤ now + Z.of_nat k * Z.of_N delay.
Proof. nia. Qed.

Lemma not_in_site_files config site p :
  p ∉ site_files config site →
  p ≠ html_file_of config site ∧ p ≠ content_file_of config site
  ∧ p ≠ diff_file_of config site ∧ p ≠ html_diff_file_of config site
  ∧ p ≠ last_check_file_of config site.
Proof.
  unfold site_files. rewrite !not_elem_of_cons. tauto.
Qed.

(** The directories a check leaves are those of the site, added to the
    ones there were. *)
Lemma check_dirs site config force_update w :
  dirs (check_website_changes site config force_update w).2 = site_dirs config site w.
Proof.
  destruct (check_cases site config force_update w)
    as [Hfail | k rest Hfetch | k html rest Hfetch Hhtml Hbase
        | k html rest previous Hfetch Hhtml -> Hprev Hne Hdiff
        | k html rest previous diff Hfetch Hhtml -> Hprev Hne Hdiff];
    [ rewrite (check_skipped _ _ _ w Hfail)
    | rewrite (check_empty_payload _ _ _ w _ _ Hfetch)
    | rewrite (check_baseline _ _ _ w _ _ _ Hfetch Hhtml Hbase)
    | rewrite (check_unchanged _ _ w _ _ _ _ Hfetch Hhtml Hprev Hne Hdiff)
    | rewrite (check_changed _ _ w _ _ _ _ _ Hfetch Hhtml Hprev Hne Hdiff) ];
    reflexivity.
Qed.

(** X10.  [check_website_changes] writes no file but the five it keeps
    in the directory of the site, uses up no answer but those of the
    site's URL, makes the data directory and the directory of the site
    and no other, leaves the notification channels as they are, and
    does not set the clock back. *)
Theorem check_touches_only_its_site
    (site : Site) (config : Config) (force_update : bool) (w : World) :
  let checked := (check_website_changes site config force_update w).2 in
  (∀ p, p ∉ site_files config site → files checked !! p = files w !! p)
  ∧ (∀ url, url ≠ site_url site → network checked !! url = network w !! url)
  ∧ dirs checked = {[site_dir_of config site]} ∪ ({[data_dir config]} ∪ dirs w)
  ∧ smtp_up checked = smtp_up w
  ∧ desktop_up checked = desktop_up w
  ∧ clock w ≤ clock checked.
Proof.
  intros checked. subst checked.
  split; [|split; [|split; [apply check_dirs|]]].
  - intros p Hp. apply not_in_site_files in Hp as (Hhtml' & Hcontent & Hdiff' & Hreport & Hlast).
    destruct (check_cases site config force_update w)
      as [Hfail | k rest Hfetch | k html rest Hfetch Hhtml Hbase
          | k html rest previous Hfetch Hhtml -> Hprev Hne Hdiff
          | k html rest previous diff Hfetch Hhtml -> Hprev Hne Hdiff];
      [ rewrite (check_skipped _ _ _ w Hfail)
      | rewrite (check_empty_payload _ _ _ w _ _ Hfetch)
      | rewrite (check_baseline _ _ _ w _ _ _ Hfetch Hhtml Hbase)
      | rewrite (check_unchanged _ _ w _ _ _ _ Hfetch Hhtml Hprev Hne Hdiff)
      | rewrite (check_changed _ _ w _ _ _ _ _ Hfetch Hhtml Hprev Hne Hdiff) ];
      cbn [snd files]; by rewrite ?lookup_insert_ne.
  - intros url Hurl.
    destruct (check_cases site config force_update w)
      as [Hfail | k rest Hfetch | k html rest Hfetch Hhtml Hbase
          | k html rest previous Hfetch Hhtml -> Hprev Hne Hdiff
          | k html rest previous diff Hfetch Hhtml -> Hprev Hne Hdiff];
      [ rewrite (check_skipped _ _ _ w Hfail)
      | rewrite (check_empty_payload _ _ _ w _ _ Hfetch)
      | rewrite (check_baseline _ _ _ w _ _ _ Hfetch Hhtml Hbase)
      | rewrite (check_unchanged _ _ w _ _ _ _ Hfetch Hhtml Hprev Hne Hdiff)
      | rewrite (check_changed _ _ w _ _ _ _ _ Hfetch Hhtml Hprev Hne Hdiff) ];
      cbn [snd network]; first [by apply consume_other | by rewrite lookup_insert_ne].
  - destruct (check_cases site config force_update w)
      as [Hfail | k rest Hfetch | k html rest Hfetch Hhtml Hbase
          | k html rest previous Hfetch Hhtml -> Hprev Hne Hdiff
          | k html rest previous diff Hfetch Hhtml -> Hprev Hne Hdiff];
      [ rewrite (check_skipped _ _ _ w Hfail)
      | rewrite (check_empty_payload _ _ _ w _ _ Hfetch)
      | rewrite (check_baseline _ _ _ w _ _ _ Hfetch Hhtml Hbase)
      | rewrite (check_unchanged _ _ w _ _ _ _ Hfetch Hhtml Hprev Hne Hdiff)
      | rewrite (check_changed _ _ w _ _ _ _ _ Hfetch Hhtml Hprev Hne Hdiff) ];
      cbn [snd smtp_up desktop_up clock];
      (split; [done|]); (split; [done|]); apply retries_take_time.
Qed.

End Frame.

(** ** Resetting a baseline *)

Section Reset.

Context {L : Libraries}.


End Reset.

(** ** A page that stays as it is *)

Section Stable.

Context {L : Libraries} {laws : DifferLaws L}.

Lemma quiet_recheck site config w k html rest held :
  fetch_answers config w (site_url site) k html rest →
  files w !! content_file_of config site = Some held →
  held = [] ∨ compute_diff (Some held) (Some (extracted_content_of site html)) = None →
  let next := check_website_changes site config false w in
  next.1 = false ∧ notifications (trace next.2) = notifications (trace w).
Proof.
  intros Hfetch Hheld Hsame next. subst next.
  destruct html as [|c html].
  - rewrite (check_empty_payload site config false _ k rest Hfetch).
    cbn [fst snd trace]. split; [done|].
    rewrite !notifications_app.
    rewrite (notifications_logs (retry_events _ _ _)) by apply retry_events_quiet.
    by rewrite !app_nil_r.
  - destruct held as [|p held].
    + rewrite (check_baseline site config false _ k (c :: html) rest); try done.
      * cbn [fst snd trace]. split; [done|].
        rewrite !notifications_app, extraction_log_quiet.
        rewrite (notifications_logs (retry_events _ _ _)) by apply retry_events_quiet.
        by rewrite !app_nil_r.
      * by rewrite Hheld.
    + destruct Hsame as [?|Hsame]; [done|].
      rewrite (check_unchanged site config _ k (c :: html) rest (p :: held)); try done.
      cbn [fst snd trace]. split; [done|].
      rewrite !notifications_app, extraction_log_quiet.
      rewrite (notifications_logs (retry_events _ _ _)) by apply retry_events_quiet.
      by rewrite !app_nil_r.
Qed.

(** X12.  After any check that got a non-empty payload, be it the first
    one, a forced one, one that found a change or one that found none, a
    further check whose payload gives the same extracted content returns
    [False] and sends no notification: a page that stays as it is is
    announced at most once. *)
Theorem stable_page_raises_no_second_alarm
    (site : Site) (config : Config) (force_update : bool) (w : World)
    (k : nat) (html : text) (rest : list response) :
  fetch_answers config w (site_url site) k html rest →
  html ≠ [] →
  let checked := check_website_changes site config force_update w in
  ∀ k' html' rest',
    fetch_answers config checked.2 (site_url site) k' html' rest' →
    extracted_content_of site html' = extracted_content_of site html →
    let next := check_website_changes site config false checked.2 in
    next.1 = false
    ∧ notifications (trace next.2) = notifications (trace checked.2).
Proof.
  intros Hfetch Hhtml checked k' html' rest' Hfetch' Hsame.
  assert (∃ held,
            files checked.2 !! content_file_of config site = Some held
            ∧ (held = []
               ∨ compute_diff (Some held) (Some (extracted_content_of site html)) = None))
    as (held & Hheld & Hquiet).
  { subst checked.
    destruct (negb (py_truthy (files w !! content_file_of config site)) || force_update)
      eqn:Hbase.
    - rewrite (check_baseline _ _ _ _ _ _ _ Hfetch Hhtml Hbase). cbn [snd files].
      exists (extracted_content_of site html). split.
      + rewrite lookup_insert_ne by done. apply lookup_insert_eq.
      + right. by apply compute_diff_same_lines.
    - apply orb_false_iff in Hbase as [Hprev ->]. apply negb_false_iff in Hprev.
      destruct (files w !! content_file_of config site) as [[|p previous]|] eqn:E; try done.
      destruct (compute_diff (Some (p :: previous)) (Some (extracted_content_of site html)))
        as [diff|] eqn:Hdiff.
      + rewrite (check_changed _ _ _ _ _ _ _ _ Hfetch Hhtml E ltac:(done) Hdiff).
        cbn [snd files]. exists (extracted_content_of site html). split.
        * apply lookup_insert_eq.
        * right. by apply compute_diff_same_lines.
      + rewrite (check_unchanged _ _ _ _ _ _ _ Hfetch Hhtml E ltac:(done) Hdiff).
        cbn [snd files]. exists (p :: previous). split.
        * by rewrite !lookup_insert_ne.
        * by right. }
  rewrite <- Hsame in Hquiet.
  exact (quiet_recheck site config checked.2 k' html' rest' held Hfetch' Hheld Hquiet).
Qed.

End Stable.

(** ** The result of a cycle *)

Section CycleResult.

Context {L : Libraries}.

Lemma no_change_record t :
  Forall (λ e, is_change_record e = false) t → existsb is_change_record t = false.
Proof. induction 1 as [|e t He _ IH]; [done|]. simpl. by rewrite He, IH. Qed.

Lemma retry_events_no_change url delay k :
  Forall (λ e, is_change_record e = false) (retry_events url delay k).
Proof.
  unfold retry_events. induction k as [|k IH]; simpl; [constructor|].
  repeat constructor. exact IH.
Qed.

Lemma exhausted_events_no_change url delay n :
  Forall (λ e, is_change_record e = false) (exhausted_events url delay n).
Proof.
  destruct n as [|m]; simpl; [constructor|].
  apply Forall_app. split; [apply retry_events_no_change|by repeat constructor].
Qed.

Lemma extraction_log_no_change site html :
  Forall (λ e, is_change_record e = false) (extraction_log_of site html).
Proof.
  unfold extraction_log_of, extract_content.
  set (selector := default "body"%string (site_selector site)).
  set (patterns := default [] (site_ignore_patterns site)).
  assert (∀ content, Forall (λ e, is_change_record e = false)
                            (apply_ignore_patterns patterns content).2) as Hpatterns.
  { intros content. eapply Forall_impl; [apply apply_ignore_patterns_logs|].
    by intros e [pattern ->]. }
  assert (∀ r, select_content html selector = Some r →
               Forall (λ e, is_change_record e = false) r.2) as Hsel.
  { unfold select_content. intros r.
    destruct (bs_parse html) as [parsed|]; simpl; [|done].
    case_bool_decide.
    - intros [= <-]. constructor.
    - destruct (soup_select parsed selector) as [[|e es]|]; simpl; [| |done].
      + intros [= <-]. by repeat constructor.
      + intros [= <-]. constructor. }
  destruct (select_content html selector) as [[content logged]|]; [|by repeat constructor].
  specialize (Hsel _ eq_refl). simpl in Hsel.
  destruct (bs_parse (apply_ignore_patterns patterns content).1 ≫= soup_visible_text); simpl.
  - apply Forall_app. by split.
  - rewrite !Forall_app. repeat split; try done. by repeat constructor.
Qed.

Lemma notify_events_no_change site diff config smtp desktop :
  Forall (λ e, is_change_record e = false) (notify_events site diff config smtp desktop).
Proof.
  unfold notify_events, send_notification, send_email_notification,
    send_desktop_notification.
  destruct (email_enabled (notification_email config)),
    (notification_desktop_enabled config),
    (email_missing_field (notification_email config)),
    (to_addr (notification_email config)), smtp, desktop;
    repeat first [rewrite bind_run | progress simpl]; by repeat constructor.
Qed.

(** A check returns [True] exactly when it logs that a change was
    detected. *)
Lemma check_result_is_logged site config force_update w :
  ∃ events,
    trace (check_website_changes site config force_update w).2 = trace w ++ events
    ∧ (check_website_changes site config force_update w).1 = existsb is_change_record events.
Proof.
  destruct (check_cases site config force_update w)
    as [Hfail | k rest Hfetch | k html rest Hfetch Hhtml Hbase
        | k html rest previous Hfetch Hhtml -> Hprev Hne Hdiff
        | k html rest previous diff Hfetch Hhtml -> Hprev Hne Hdiff];
    [ rewrite (check_skipped _ _ _ w Hfail)
    | rewrite (check_empty_payload _ _ _ w _ _ Hfetch)
    | rewrite (check_baseline _ _ _ w _ _ _ Hfetch Hhtml Hbase)
    | rewrite (check_unchanged _ _ w _ _ _ _ Hfetch Hhtml Hprev Hne Hdiff)
    | rewrite (check_changed _ _ w _ _ _ _ _ Hfetch Hhtml Hprev Hne Hdiff) ];
    cbn [fst snd trace]; eexists; (split; [reflexivity|]);
    rewrite !existsb_app;
    rewrite ?(no_change_record _ (retry_events_no_change _ _ _)),
      ?(no_change_record _ (exhausted_events_no_change _ _ _)),
      ?(no_change_record _ (extraction_log_no_change _ _)),
      ?(no_change_record _ (notify_events_no_change _ _ _ _ _));
    reflexivity.
Qed.

Lemma check_sites_loop_result config remaining :
  ∀ changes_detected w,
    ∃ events,
      trace (check_sites_loop config remaining changes_detected w).2 = trace w ++ events
      ∧ (check_sites_loop config remaining changes_detected w).1
        = changes_detected || existsb is_change_record events.
Proof.
  induction remaining as [|site rest IH]; intros changes_detected w.
  - exists []. cbn. by rewrite app_nil_r, orb_false_r.
  - destruct (default true (site_active site)) eqn:Hactive.
    + rewrite check_sites_loop_active by done.
      destruct (check_result_is_logged site config false w) as (events & Htrace & ->).
      destruct (IH (if existsb is_change_record events then true else changes_detected)
                   (check_website_changes site config false w).2)
        as (events' & Htrace' & ->).
      exists (events ++ events'). rewrite Htrace', Htrace, app_assoc. split; [done|].
      rewrite existsb_app.
      by destruct (existsb is_change_record events), changes_detected.
    + rewrite check_sites_loop_inactive by done.
      destruct (IH changes_detected
                   (with_trace (trace w ++ [EvLog INFO (SkipDisabled (site_name site))]) w))
        as (events' & Htrace' & ->).
      exists ([EvLog INFO (SkipDisabled (site_name site))] ++ events').
      rewrite Htrace'. cbn [trace with_trace]. rewrite <- app_assoc. split; [done|].
      by rewrite existsb_app.
Qed.

(** X13.  A cycle of [check_sites] over a non-empty list of sites
    returns [True] exactly when, during the cycle, the record of a
    detected change was logged for some site, and [False] otherwise;
    over an empty list it returns nothing.  The events of the trace
    before the cycle stay as they were. *)
Theorem check_sites_reports_the_logged_changes (config : Config) (w : World) :
  let cycle := check_sites config None w in
  ∃ events,
    trace cycle.2 = trace w ++ events
    ∧ cycle.1 = match sites config with
                | [] => None
                | _ :: _ => Some (existsb is_change_record events)
                end.
Proof.
  intros cycle. subst cycle. unfold check_sites.
  destruct (sites config) as [|site rest].
  - rewrite bind_run. cbn. by eexists.
  - rewrite bind_run. cbn [fst snd mret M_ret].
    destruct (check_sites_loop_result config (site :: rest) false w)
      as (events & Htrace & Hresult).
    exists events. split; [done|]. by rewrite Hresult.
Qed.

End CycleResult.

(** ** The daemon between two checks *)

Section Daemon.

Context {L : Libraries}.

Lemma site_dirs_again config site force_update w :
  site_dirs config site (check_website_changes site config force_update w).2
  = dirs (check_website_changes site config force_update w).2.
Proof.
  unfold site_dirs at 1. rewrite check_dirs. unfold site_dirs. apply set_eq. intros d.
  rewrite !elem_of_union. tauto.
Qed.

Lemma with_dirs_same w : with_dirs (dirs w) w = w.
Proof. by destruct w. Qed.

(** X14.  After a check of an active site that got a non-empty payload,
    the daemon's visit to that site changes nothing at all as long as
    less than the site's interval has passed since the check, and checks
    the site again as soon as the interval has passed: the time it reads
    back from the check record is the clock reading of the check. *)
Theorem daemon_rechecks_after_the_interval {laws : JsonLaws L}
    (site : Site) (config : Config) (force_update : bool) (w : World)
    (k : nat) (html : text) (rest : list response) (now : Z) :
  default true (site_active site) = true →
  fetch_answers config w (site_url site) k html rest →
  html ≠ [] →
  let checked := check_website_changes site config force_update w in
  let visited := daemon_visit config now site checked.2 in
  last_check_time_of (files checked.2) (last_check_file_of config site) = clock checked.2
  ∧ (now - clock checked.2 < effective_interval config site → visited.2 = checked.2)
  ∧ (effective_interval config site ≤ now - clock checked.2 →
       visited.2 = (check_website_changes site config false checked.2).2
       ∧ ∃ events,
           trace visited.2
           = trace checked.2 ++ EvLog INFO (Checking (site_name site) (site_url site)) :: events).
Proof.
  intros Hactive Hfetch Hhtml checked visited.
  pose proof (check_records_its_time site config force_update w k html rest Hfetch Hhtml)
    as Hrecord.
  cbv zeta in Hrecord. fold checked in Hrecord.
  split; [exact Hrecord|].
  subst visited. rewrite daemon_visit_run, Hactive. cbn [negb]. cbv zeta.
  assert (with_dirs (site_dirs config site checked.2) checked.2 = checked.2) as Hprepared.
  { unfold checked. rewrite site_dirs_again. apply with_dirs_same. }
  rewrite Hrecord, !Hprepared. split.
  - intros Hearly.
    replace (_ >=? _) with false by (symmetry; rewrite Z.geb_leb; apply Z.leb_gt; lia).
    done.
  - intros Hdue.
    replace (_ >=? _) with true by (symmetry; apply Z.geb_le; lia).
    split; [done|]. apply check_trace_grows.
Qed.

Lemma idle_visits config now sites_left :
  ∀ w,
    Forall (not_due config (files w) now) sites_left →
    let visited := (for_each (daemon_visit config now) sites_left w).2 in
    files visited = files w ∧ network visited = network w
    ∧ clock visited = clock w ∧ trace visited = trace w.
Proof.
  induction sites_left as [|site rest IH]; intros w Hidle visited; subst visited; [done|].
  apply Forall_cons in Hidle as [Hsite Hrest].
  cbn [for_each]. rewrite bind_run, daemon_visit_run. cbv zeta.
  assert (∃ w', (if negb (default true (site_active site)) then ((), w)
                 else if now - last_check_time_of (files w) (last_check_file_of config site)
                           >=? effective_interval config site
                      then ((), (check_website_changes site config false
                                   (with_dirs (site_dirs config site w) w)).2)
                      else ((), with_dirs (site_dirs config site w) w)) = ((), w')
                ∧ files w' = files w ∧ network w' = network w
                ∧ clock w' = clock w ∧ trace w' = trace w) as (w' & -> & Hf & Hn & Hc & Ht).
  { destruct Hsite as [Hoff|Hearly].
    - rewrite Hoff. by exists w.
    - destruct (negb (default true (site_active site))); [by exists w|].
      replace (_ >=? _) with false by (symmetry; rewrite Z.geb_leb; apply Z.leb_gt; lia).
      by eexists. }
  cbn [fst snd]. rewrite <- Hf in Hrest.
  destruct (IH w' Hrest) as (Hf' & Hn' & Hc' & Ht').
  repeat split; congruence.
Qed.

(** X15.  A pass of the daemon in which no site is due (each site is
    inactive, or was last checked less than its interval ago) makes no
    request and writes no file: it only sleeps its 60 seconds. *)
Theorem idle_pass_only_sleeps (config : Config) (w : World) :
  Forall (not_due config (files w) (clock w)) (sites config) →
  let passed := (daemon_tick config w).2 in
  files passed = files w
  ∧ network passed = network w
  ∧ trace passed = trace w ++ [EvSleep 60]
  ∧ clock passed = clock w + 60.
Proof.
  intros Hidle passed. subst passed. unfold daemon_tick.
  rewrite !bind_run. cbn [time_time fst snd].
  destruct (idle_visits config (clock w) (sites config) w Hidle) as (Hf & Hn & Hc & Ht).
  cbn [time_sleep snd files network trace clock with_trace with_clock].
  rewrite Hf, Hn, Hc, Ht. done.
Qed.

End Daemon.

(** ** Showing the last change *)

Section Display.

Context {L : Libraries}.



End Display.

(** ** The configuration loaded *)

Section Defaults.

Context {V : Type}.

Lemma fill_defaults_cons name (value : V) defaults config :
  fill_defaults ((name, value) :: defaults) config
  = fill_defaults defaults
      match config !! name with
      | Some _ => config
      | None => <[name := value]> config
      end.
Proof. reflexivity. Qed.

Lemma fill_defaults_lookup (defaults : list (string * V)) :
  ∀ (config : gmap string V) key,
    fill_defaults defaults config !! key
    = match config !! key with
      | Some value => Some value
      | None => (list_to_map defaults : gmap string V) !! key
      end.
Proof.
  induction defaults as [|[name value] defaults IH]; intros config key.
  - cbn. by destruct (config !! key).
  - rewrite fill_defaults_cons, IH, list_to_map_cons.
    destruct (config !! name) as [given|] eqn:Hname.
    + destruct (config !! key) as [held|] eqn:Hkey; [done|].
      rewrite lookup_insert_ne; [done|]. intros ->. congruence.
    + destruct (decide (name = key)) as [->|Hother].
      * by rewrite lookup_insert_eq, Hname, lookup_insert_eq.
      * by rewrite !lookup_insert_ne.
Qed.

(** X17.  [load_config] returns nothing when there is no file and when
    loading it raises.  Otherwise the configuration it returns holds
    every key of the file with the value the file gives, whole, and each
    key of [DEFAULT_CONFIG] the file leaves out with its default value,
    and no other key: a value given for a key is never completed from
    the default for that key. *)
Theorem load_config_fills_the_missing_keys
    (json_load : text → option (gmap string V)) (DEFAULT_CONFIG : gmap string V)
    (held : option text) :
  match load_config json_load DEFAULT_CONFIG held with
  | ConfigMissing => held = None
  | ConfigUnreadable => ∃ content, held = Some content ∧ json_load content = None
  | ConfigLoaded config =>
      ∃ content given,
        held = Some content ∧ json_load content = Some given
        ∧ ∀ key, config !! key = match given !! key with
                                 | Some value => Some value
                                 | None => DEFAULT_CONFIG !! key
                                 end
  end.
Proof.
  unfold load_config. destruct held as [content|]; [|done].
  destruct (json_load content) as [given|] eqn:Hload; [|by eexists].
  exists content, given. split; [done|]. split; [done|].
  intros key. by rewrite fill_defaults_lookup, list_to_map_to_list.
Qed.

End Defaults.

(** ** The lines a diff reports *)

Section Reported.

Context {L : Libraries} {laws : DifferLaws L}.

Lemma py_startswith_split tag line :
  py_startswith tag line = true → line = tag ++ drop (length tag) line.
Proof.
  revert line. induction tag as [|c tag IH]; intros line; [done|].
  destruct line as [|c' line]; [done|]. simpl.
  intros [Hc Hrest]%andb_true_iff. apply N.eqb_eq in Hc as ->.
  f_equal. by apply IH.
Qed.

Lemma restored_line tag delta line :
  line ∈ delta →
  py_startswith TAG_SAME line || py_startswith tag line = true →
  drop 2 line ∈ difflib_restore tag delta.
Proof.
  intros Hin Hkept. unfold difflib_restore.
  apply list_elem_of_fmap_2, list_elem_of_filter. split; [|done]. by rewrite Hkept.
Qed.

Lemma restored_from tag delta x :
  x ∈ difflib_restore tag delta →
  ∃ line, line ∈ delta ∧ x = drop 2 line
          ∧ (py_startswith TAG_SAME line = true ∨ py_startswith tag line = true).
Proof.
  unfold difflib_restore. intros (line & -> & Hin)%list_elem_of_fmap.
  apply list_elem_of_filter in Hin as [Hkept Hin].
  exists line. split; [done|]. split; [done|].
  apply orb_True in Hkept as [H|H]; apply Is_true_true in H; auto.
Qed.

Lemma change_line_in c delta line :
  line ∈ delta →
  py_startswith TAG_NEW line = true ∨ py_startswith TAG_OLD line = true →
  c = line → c ∈ changes_of delta.
Proof.
  intros Hin Hchange ->. unfold changes_of. apply list_elem_of_filter. split; [|done].
  destruct Hchange as [-> | ->]; [done|]. by rewrite orb_true_r.
Qed.

(** X18.  Under what difflib documents of a delta, the change lines
    [compute_diff] joins report lines of the two texts and leave none
    out: a line marked as added is a line of the new text and a line
    marked as removed is a line of the old text; and every line of the
    new text that the old text does not have is there, marked as added,
    as is every line of the old text that the new text does not have,
    marked as removed. *)
Theorem compute_diff_reports_the_lines_that_differ (a b : text) :
  let old_lines := py_splitlines a in
  let new_lines := py_splitlines b in
  let changes := changes_of (differ_compare old_lines new_lines) in
  (∀ line, line ∈ changes →
     (py_startswith TAG_NEW line = true ∧ drop 2 line ∈ new_lines)
     ∨ (py_startswith TAG_OLD line = true ∧ drop 2 line ∈ old_lines))
  ∧ (∀ x, x ∈ new_lines → x ∉ old_lines → TAG_NEW ++ x ∈ changes)
  ∧ (∀ x, x ∈ old_lines → x ∉ new_lines → TAG_OLD ++ x ∈ changes).
Proof.
  intros old_lines new_lines changes. subst changes.
  set (delta := differ_compare old_lines new_lines).
  pose proof (differ_restore_old old_lines new_lines) as Hold.
  pose proof (differ_restore_new old_lines new_lines) as Hnew.
  fold delta in Hold, Hnew.
  split; [|split].
  - intros line Hin. unfold changes_of in Hin.
    apply list_elem_of_filter in Hin as [Hchange Hin].
    apply orb_True in Hchange as [H|H]; apply Is_true_true in H.
    + left. split; [done|]. rewrite <- Hnew. apply restored_line; [done|].
      by rewrite H, orb_true_r.
    + right. split; [done|]. rewrite <- Hold. apply restored_line; [done|].
      by rewrite H, orb_true_r.
  - intros x Hx Hnot. rewrite <- Hnew in Hx.
    apply restored_from in Hx as (line & Hin & -> & [Hsame|Hadded]).
    + exfalso. apply Hnot. rewrite <- Hold. apply restored_line; [done|]. by rewrite Hsame.
    + apply (change_line_in _ _ line); [done|by left|].
      by rewrite (py_startswith_split _ _ Hadded) at 2.
  - intros x Hx Hnot. rewrite <- Hold in Hx.
    apply restored_from in Hx as (line & Hin & -> & [Hsame|Hremoved]).
    + exfalso. apply Hnot. rewrite <- Hnew. apply restored_line; [done|]. by rewrite Hsame.
    + apply (change_line_in _ _ line); [done|by right|].
      by rewrite (py_startswith_split _ _ Hremoved) at 2.
Qed.

End Reported.

(** ** What every check leaves *)

Section Refreshed.

Context {L : Libraries}.


End Refreshed.

(** ** The pace of the daemon *)

Section Pace.

Context {L : Libraries}.

Lemma check_clock site config force_update w :
  clock w ≤ clock (check_website_changes site config force_update w).2.
Proof.
  destruct (check_cases site config force_update w)
    as [Hfail | k rest Hfetch | k html rest Hfetch Hhtml Hbase
        | k html rest previous Hfetch Hhtml -> Hprev Hne Hdiff
        | k html rest previous diff Hfetch Hhtml -> Hprev Hne Hdiff];
    [ rewrite (check_skipped _ _ _ w Hfail)
    | rewrite (check_empty_payload _ _ _ w _ _ Hfetch)
    | rewrite (check_baseline _ _ _ w _ _ _ Hfetch Hhtml Hbase)
    | rewrite (check_unchanged _ _ w _ _ _ _ Hfetch Hhtml Hprev Hne Hdiff)
    | rewrite (check_changed _ _ w _ _ _ _ _ Hfetch Hhtml Hprev Hne Hdiff) ];
    cbn [snd clock]; apply retries_take_time.
Qed.

Lemma daemon_visit_clock config now site w :
  clock w ≤ clock (daemon_visit config now site w).2.
Proof.
  rewrite daemon_visit_run. destruct (negb (default true (site_active site))); [done|].
  cbv zeta. destruct (_ >=? _); cbn [snd]; [|done].
  etrans; [|apply check_clock]. done.
Qed.

Lemma daemon_visits_clock config now sites_left :
  ∀ w, clock w ≤ clock (for_each (daemon_visit config now) sites_left w).2.
Proof.
  induction sites_left as [|site rest IH]; intros w; [done|].
  cbn [for_each]. rewrite bind_run.
  etrans; [apply (daemon_visit_clock config now site)|]. apply IH.
Qed.

Lemma daemon_tick_clock config w : clock w + 60 ≤ clock (daemon_tick config w).2.
Proof.
  unfold daemon_tick. rewrite !bind_run.
  cbn [time_time fst snd time_sleep clock with_trace with_clock].
  pose proof (daemon_visits_clock config (clock w) (sites config) w). lia.
Qed.

Lemma daemon_ticks_clock config passes :
  ∀ w, clock w + 60 * Z.of_nat passes ≤ clock (daemon_ticks config passes w).2.
Proof.
  induction passes as [|n IH]; intros w; [cbn; lia|].
  cbn [daemon_ticks]. rewrite bind_run.
  pose proof (daemon_tick_clock config w).
  pose proof (IH (daemon_tick config w).2). lia.
Qed.

(** X20.  [run_daemon] with no site to watch logs the error and
    returns at once, without a pass.  With sites, every pass takes a
    minute at the least: when the daemon is stopped after [passes]
    passes, 60 seconds times [passes] have gone by or more, and the
    last record is that the monitor was stopped. *)
Theorem daemon_passes_take_a_minute_each (config : Config) (passes : nat) (w : World) :
  let ran := (run_daemon config passes w).2 in
  match sites config with
  | [] =>
      ran = with_trace (trace w ++ [EvLog INFO DaemonStarted; EvLog ERROR EmptySiteList]) w
  | _ :: _ =>
      clock w + 60 * Z.of_nat passes ≤ clock ran
      ∧ last (trace ran) = Some (EvLog INFO DaemonStopped)
  end.
Proof.
  intros ran. subst ran. unfold run_daemon.
  destruct (sites config) as [|site rest] eqn:Hsites.
  - rewrite bind_run. cbn. apply world_eq; cbn; try done. by rewrite <- app_assoc.
  - rewrite !bind_run. cbn [fst snd log emit clock trace with_trace].
    split; [|apply last_snoc].
    apply (daemon_ticks_clock config passes
             (with_trace (trace w ++ [EvLog INFO DaemonStarted]) w)).
Qed.

End Pace.

(** ** The further statements at work *)

Section MoreExamples.

#[local] Existing Instance Demo.libraries.

Ltac computed H := vm_compute in H; vm_compute; exact H.

(** Two texts the normalisation brings to one line each. *)
Lemma normalised_texts_differ_iff_diff_witness :
  let a := normalize_whitespace (txt "  Hello   World ") in
  let b := normalize_whitespace (txt "Hello World!") in
  a = txt "Hello World"
  ∧ py_splitlines a = [a]
  ∧ (is_Some (compute_diff (Some a) (Some b)) ↔ a ≠ b).
Proof.
  intros a b. split; [vm_compute; reflexivity|].
  apply (normalised_texts_differ_iff_diff (laws := demo_differ_laws)
           (txt "  Hello   World ") (txt "Hello World!")); vm_compute; discriminate.
Defined.

Lemma compute_diff_joins_the_change_lines_witness :
  let diff := txt "- Hello" ++ LF ++ txt "+ Hello World" in
  compute_diff (Some (txt "Hello")) (Some (txt "Hello World")) = Some diff
  ∧ diff ≠ []
  ∧ Forall is_change_line
      (changes_of (differ_compare (py_splitlines (txt "Hello"))
                                  (py_splitlines (txt "Hello World")))).
Proof.
  intros diff.
  assert (compute_diff (Some (txt "Hello")) (Some (txt "Hello World")) = Some diff) as Hdiff
    by (vm_compute; reflexivity).
  destruct (compute_diff_joins_the_change_lines _ _ _ Hdiff) as (Hne & _ & _ & Hlines & _).
  split; [exact Hdiff|]. split; [exact Hne|exact Hlines].
Defined.

Lemma compute_diff_none_is_symmetric_witness :
  compute_diff (Some (txt "Hello")) (Some (txt "Hello" ++ LF)) = None
  ↔ compute_diff (Some (txt "Hello" ++ LF)) (Some (txt "Hello")) = None.
Proof.
  exact (compute_diff_none_is_symmetric (laws := demo_differ_laws)
           (txt "Hello") (txt "Hello" ++ LF)).
Defined.

(** Three patterns, the second of which does not compile: the digits
    and the capital are deleted all the same. *)
Lemma invalid_pattern_is_skipped_witness :
  let html := txt "<p>Call 555</p>" in
  let patterns := ["5"; "("; "C"]%string in
  (∀ content, re_sub_delete (Libraries := Strict.libraries) "(" content = ReError)
  ∧ (extract_content (L := Strict.libraries) html "body" patterns).1 = txt "all"
  ∧ EvLog ERROR (InvalidPattern "(")
    ∈ (extract_content (L := Strict.libraries) html "body" patterns).2.
Proof.
  intros html patterns.
  assert (∀ content, re_sub_delete (Libraries := Strict.libraries) "(" content = ReError)
    as Hinvalid by (intros content; reflexivity).
  destruct (invalid_pattern_is_skipped (L := Strict.libraries) html "body"
              ["5"%string] ["C"%string] "(" Hinvalid) as [Hsame Hlogged].
  split; [exact Hinvalid|]. split.
  - etrans; [exact Hsame|]. vm_compute. reflexivity.
  - apply Hlogged. vm_compute. by eexists.
Defined.


(** The page of the example site changes once and then stays: the
    change is announced once. *)
Lemma stable_page_raises_no_second_alarm_witness :
  let w := Demo.world_with_snapshot "https://example.com" (txt "Hello")
             [ResponseText Demo.hello_world; ResponseText Demo.hello_world] 1000 in
  let checked := check_website_changes Demo.example_site Demo.config false w in
  let next := check_website_changes Demo.example_site Demo.config false checked.2 in
  checked.1 = true
  ∧ next.1 = false
  ∧ notifications (trace next.2) = notifications (trace checked.2).
Proof.
  intros w checked next.
  assert (fetch_answers Demo.config w "https://example.com" 0 Demo.hello_world
            [ResponseText Demo.hello_world]) as Hfetch
    by (split; vm_compute; reflexivity).
  assert (fetch_answers Demo.config checked.2 "https://example.com" 0 Demo.hello_world [])
    as Hfetch' by (split; vm_compute; reflexivity).
  destruct (stable_page_raises_no_second_alarm (laws := demo_differ_laws)
              Demo.example_site Demo.config false w 0 Demo.hello_world
              [ResponseText Demo.hello_world] Hfetch ltac:(discriminate)
              0%nat Demo.hello_world [] Hfetch' eq_refl) as [Hresult Hquiet].
  split; [vm_compute; reflexivity|]. split; [computed Hresult|computed Hquiet].
Defined.

(** The example site, whose interval is 60 seconds, is checked at 1000:
    the daemon leaves it alone at 1030 and checks it again at 1060. *)
Lemma daemon_rechecks_after_the_interval_witness :
  let w := Demo.world "https://example.com" [ResponseText Demo.hello] 1000 in
  let checked := check_website_changes Demo.example_site Demo.config false w in
  last_check_time_of (files checked.2) (last_check_file_of Demo.config Demo.example_site)
  = 1000
  ∧ trace (daemon_visit Demo.config 1030 Demo.example_site checked.2).2 = trace checked.2
  ∧ ∃ events,
      trace (daemon_visit Demo.config 1060 Demo.example_site checked.2).2
      = trace checked.2 ++ EvLog INFO (Checking "Example" "https://example.com") :: events.
Proof.
  intros w checked.
  assert (fetch_answers Demo.config w "https://example.com" 0 Demo.hello []) as Hfetch
    by (split; vm_compute; reflexivity).
  pose proof (daemon_rechecks_after_the_interval (laws := demo_json_laws)
                Demo.example_site Demo.config false w 0 Demo.hello [] 1030
                eq_refl Hfetch ltac:(discriminate)) as Hat_1030.
  pose proof (daemon_rechecks_after_the_interval (laws := demo_json_laws)
                Demo.example_site Demo.config false w 0 Demo.hello [] 1060
                eq_refl Hfetch ltac:(discriminate)) as Hat_1060.
  cbv zeta in Hat_1030, Hat_1060.
  destruct Hat_1030 as (Hrecord & Hearly & _). destruct Hat_1060 as (_ & _ & Hdue).
  specialize (Hearly ltac:(vm_compute; reflexivity)).
  specialize (Hdue ltac:(vm_compute; discriminate)).
  destruct Hdue as [_ Hgrows]. subst checked.
  split; [computed Hrecord|]. split; [by rewrite Hearly|exact Hgrows].
Defined.

(** The example site was checked ten seconds ago: the pass makes no
    request and ends a minute later. *)
Lemma idle_pass_only_sleeps_witness :
  let w := with_files
             {[ last_check_file_of Demo.config Demo.example_site := check_record 990 ]}
             (Demo.world "https://example.com" [ResponseText Demo.hello] 1000) in
  let passed := (daemon_tick Demo.config w).2 in
  not_due Demo.config (files w) 1000 Demo.example_site
  ∧ requests_of (trace passed) = []
  ∧ clock passed = 1060
  ∧ files passed !! html_file_of Demo.config Demo.example_site = None.
Proof.
  intros w passed.
  assert (not_due Demo.config (files w) 1000 Demo.example_site) as Hsite
    by (right; vm_compute; reflexivity).
  assert (Forall (not_due Demo.config (files w) (clock w)) (sites Demo.config)) as Hidle
    by (constructor; [exact Hsite|constructor]).
  destruct (idle_pass_only_sleeps Demo.config w Hidle) as (Hfiles & _ & Htrace & Hclock).
  split; [exact Hsite|].
  split; [unfold passed; rewrite Htrace; reflexivity|].
  split; [unfold passed; rewrite Hclock; reflexivity|].
  unfold passed. rewrite Hfiles. vm_compute. reflexivity.
Defined.


(** The line added and the line removed between [Hello] and
    [Hello World] are both reported. *)
Lemma compute_diff_reports_the_lines_that_differ_witness :
  let changes := changes_of (differ_compare (py_splitlines (txt "Hello"))
                                            (py_splitlines (txt "Hello World"))) in
  TAG_NEW ++ txt "Hello World" ∈ changes
  ∧ TAG_OLD ++ txt "Hello" ∈ changes.
Proof.
  intros changes.
  pose proof (compute_diff_reports_the_lines_that_differ (laws := demo_differ_laws)
                (txt "Hello") (txt "Hello World")) as Hreported.
  cbv zeta in Hreported. destruct Hreported as (_ & Hadded & Hremoved).
  assert (py_splitlines (txt "Hello") = [txt "Hello"]) as Hold
    by (vm_compute; reflexivity).
  assert (py_splitlines (txt "Hello World") = [txt "Hello World"]) as Hnew
    by (vm_compute; reflexivity).
  split.
  - apply Hadded.
    + rewrite Hnew. left.
    + rewrite Hold. apply not_elem_of_cons. split; [vm_compute; discriminate|].
      apply not_elem_of_nil.
  - apply Hremoved.
    + rewrite Hold. left.
    + rewrite Hnew. apply not_elem_of_cons. split; [vm_compute; discriminate|].
      apply not_elem_of_nil.
Defined.

End MoreExamples.
